(** * The composable validation framework of
      [api_testing/Validation_Testing/validation_testing.py]

    A shallow embedding of the validator classes of the file: the basic ones
    ([StringValidator], [NumberValidator], [BooleanValidator],
    [DateValidator]), the composite ones ([ListValidator], [DictValidator],
    [UnionValidator], [OptionalValidator]), the common patterns
    ([EmailValidator], [PasswordValidator], [PhoneNumberValidator],
    [URLValidator], with their patterns as regular expressions),
    [CustomValidator] and [JSONSchemaValidator], together with the two
    classes they produce, [ValidationError] and [ValidationResult], and with
    the functions built on them: [ValidatedModel], [validate_arguments] and
    [validate_registration_form].

    [ValidationError] objects are mutable Python objects: the composite
    validators assign to [error.field] while they aggregate the errors of a
    child result.  They are therefore kept in a store of objects, addressed by
    their allocation index, and [validate] is a state-and-exception
    computation over that store. *)

From Stdlib Require Import ZArith String Ascii List Bool Lia DecimalString.
From Stdlib Require Import Floats.SpecFloat.
From stdpp Require Import base tactics option list strings.

Set Warnings "-register-all".

Open Scope string_scope.
Open Scope list_scope.
Open Scope stdpp_scope.
Open Scope Z_scope.

(** ** Python values *)

(** [datetime.date] objects and [datetime.datetime] objects (a subclass of
    [datetime.date]).  A date is identified by its proleptic Gregorian ordinal,
    a (naive) datetime by the ordinal and the microsecond of the day. *)
Inductive dateval : Type :=
| PlainDate (ordinal : Z)
| DateTime (ordinal : Z) (micros : Z).

(** The values a validator receives.  Floats are IEEE doubles in the
    representation of [SpecFloat]; dictionaries keep insertion order and may
    have keys of any type, as Python's do. *)
Inductive value : Type :=
| VNone
| VBool (b : bool)
| VInt (z : Z)
| VFloat (f : spec_float)
| VStr (s : string)
| VDate (d : dateval)
| VList (items : list value)
| VDict (entries : list (value * value)).

(** [Union[int, float]], the type of the numeric bounds. *)
Inductive num : Type :=
| NInt (z : Z)
| NFloat (f : spec_float).

(** Exceptions the framework can let escape; [UserError] is an exception of
    any other class, by the name of the class, raised by a function of the
    caller. *)
Inductive exn : Type :=
| TypeError
| ReError
| IndexError
| AttributeError
| UserError (class_name : string).

Inductive outcome (A : Type) : Type :=
| Ok (a : A)
| Raise (e : exn).
Arguments Ok {A} a.
Arguments Raise {A} e.

(** A compiled regular expression: its source ([.pattern]) and what
    [.match] decides. *)
Record Pattern : Type := {
  pattern_src : string;
  pattern_match : string -> bool
}.

(** ** Strings and regular expressions *)

(** [sub in s] *)
Fixpoint str_contains (sub s : string) : bool :=
  String.prefix sub s ||
  match s with
  | String _ rest => str_contains sub rest
  | EmptyString => false
  end.

(** [s.split(sep)] for a separator of one character. *)
Fixpoint split_char (sep : ascii) (s : string) : list string :=
  match s with
  | EmptyString => [EmptyString]
  | String c rest =>
      if Ascii.eqb c sep then EmptyString :: split_char sep rest
      else
        match split_char sep rest with
        | part :: parts => String c part :: parts
        | [] => [String c EmptyString]
        end
  end.

(** The string without its final newline, if it ends with one. *)
Fixpoint chop_newline (s : string) : option string :=
  match s with
  | EmptyString => None
  | String c EmptyString => if Ascii.eqb c "010" then Some EmptyString else None
  | String c rest =>
      match chop_newline rest with
      | Some rest' => Some (String c rest')
      | None => None
      end
  end.

(** Regular expressions, as far as the patterns of the framework need
    them. *)
Inductive regex : Type :=
| Void
| Eps
| Class (accepts : ascii -> bool)
| Seq (r1 r2 : regex)
| Alt (r1 r2 : regex)
| Star (r : regex).

(** [r+] and a literal character. *)
Definition Plus (r : regex) : regex := Seq r (Star r).
Definition Lit (c : ascii) : regex := Class (Ascii.eqb c).

Fixpoint nullable (r : regex) : bool :=
  match r with
  | Void => false
  | Eps => true
  | Class _ => false
  | Seq r1 r2 => nullable r1 && nullable r2
  | Alt r1 r2 => nullable r1 || nullable r2
  | Star _ => true
  end.

(** What is left of [r] after the character [c]. *)
Fixpoint derivative (c : ascii) (r : regex) : regex :=
  match r with
  | Void => Void
  | Eps => Void
  | Class accepts => if accepts c then Eps else Void
  | Seq r1 r2 =>
      Alt (Seq (derivative c r1) r2) (if nullable r1 then derivative c r2 else Void)
  | Alt r1 r2 => Alt (derivative c r1) (derivative c r2)
  | Star r1 => Seq (derivative c r1) (Star r1)
  end.

(** [r] matches the whole of [s]. *)
Fixpoint fullmatch (r : regex) (s : string) : bool :=
  match s with
  | EmptyString => nullable r
  | String c rest => fullmatch (derivative c r) rest
  end.

(** [re.compile("^" + r + "$").match(s)]: the pattern must match from the
    start, up to the end of the string or to the newline that ends it. *)
Definition match_anchored (r : regex) (s : string) : bool :=
  fullmatch r s ||
  match chop_newline s with
  | Some s' => fullmatch r s'
  | None => false
  end.

(** The strings of a regular expression. *)
Inductive in_lang : regex -> string -> Prop :=
| in_eps : in_lang Eps EmptyString
| in_class accepts c : accepts c = true -> in_lang (Class accepts) (String c EmptyString)
| in_seq r1 r2 s1 s2 : in_lang r1 s1 -> in_lang r2 s2 -> in_lang (Seq r1 r2) (s1 +:+ s2)
| in_alt_l r1 r2 s : in_lang r1 s -> in_lang (Alt r1 r2) s
| in_alt_r r1 r2 s : in_lang r2 s -> in_lang (Alt r1 r2) s
| in_star_nil r : in_lang (Star r) EmptyString
| in_star_more r s1 s2 : in_lang r s1 -> in_lang (Star r) s2 -> in_lang (Star r) (s1 +:+ s2).

(** Every character of the string satisfies [f]. *)
Fixpoint all_chars (f : ascii -> bool) (s : string) : bool :=
  match s with
  | EmptyString => true
  | String c rest => f c && all_chars f rest
  end.

(** Some character of the string satisfies [f]: [any(f(c) for c in s)]. *)
Fixpoint any_char (f : ascii -> bool) (s : string) : bool :=
  match s with
  | EmptyString => false
  | String c rest => f c || any_char f rest
  end.

(** A character other than [sep]. *)
Definition other_than (sep c : ascii) : bool := negb (Ascii.eqb c sep).

(** [s[n:]] *)
Fixpoint skip (n : nat) (s : string) : string :=
  match n, s with
  | O, _ => s
  | S n', String _ rest => skip n' rest
  | S _, EmptyString => EmptyString
  end.

(** [s.split(sep, 1)] for a non-empty separator: the string itself when
    [sep] does not occur in it, and otherwise what is before and what is
    after the first occurrence. *)
Fixpoint split_once (sep s : string) : list string :=
  if String.prefix sep s then [EmptyString; skip (String.length sep) s]
  else
    match s with
    | EmptyString => [EmptyString]
    | String c rest =>
        match split_once sep rest with
        | part :: parts => String c part :: parts
        | [] => [String c EmptyString]
        end
    end.

(** [s.endswith(suffix)] *)
Fixpoint ends_with (suffix s : string) : bool :=
  String.eqb suffix s ||
  match s with
  | String _ rest => ends_with suffix rest
  | EmptyString => false
  end.

(** [''.join(c for c in s if f(c))] *)
Fixpoint filter_chars (f : ascii -> bool) (s : string) : string :=
  match s with
  | EmptyString => EmptyString
  | String c rest => if f c then String c (filter_chars f rest) else filter_chars f rest
  end.

(** [parts[i]], which raises [IndexError] out of range. *)
Definition item (parts : list string) (i : nat) : outcome string :=
  match nth_error parts i with
  | Some part => Ok part
  | None => Raise IndexError
  end.

(** [r?], the characters of a word one after the other, [r{n}] and
    [r{lo,hi}]. *)
Definition Opt (r : regex) : regex := Alt r Eps.

Fixpoint Word (s : string) : regex :=
  match s with
  | EmptyString => Eps
  | String c rest => Seq (Lit c) (Word rest)
  end.

Fixpoint Exactly (n : nat) (r : regex) : regex :=
  match n with
  | O => Eps
  | S n' => Seq r (Exactly n' r)
  end.

Fixpoint UpTo (n : nat) (r : regex) : regex :=
  match n with
  | O => Eps
  | S n' => Opt (Seq r (UpTo n' r))
  end.

Definition Between (lo hi : nat) (r : regex) : regex :=
  Seq (Exactly lo r) (UpTo (hi - lo) r).

(** [[a-zA-Z]], [[0-9]] and a range of characters in general. *)
Definition in_range (lo hi c : ascii) : bool :=
  (nat_of_ascii lo <=? nat_of_ascii c)%nat && (nat_of_ascii c <=? nat_of_ascii hi)%nat.

Definition is_ascii_letter (c : ascii) : bool := in_range "a" "z" c || in_range "A" "Z" c.
Definition is_ascii_digit (c : ascii) : bool := in_range "0" "9" c.

(** ** The Python runtime *)

(** The methods of [str] that [PasswordValidator] and [PhoneNumberValidator]
    call on the characters of a string. *)
Record Chars : Type := {
  isupper : ascii -> bool;
  islower : ascii -> bool;
  isdigit : ascii -> bool;
  isalnum : ascii -> bool
}.

(** The classes of characters of [re] and of [str.split()]: what [\d] and
    [\s] match, and the whitespace at which [split] cuts a string. *)
Record Classes : Type := {
  re_digit : ascii -> bool;
  re_space : ascii -> bool;
  whitespace : ascii -> bool
}.

(** The functions of the Python runtime that the framework calls and that are
    not part of the repository. *)
Record Lib : Type := {
  (** [str(x)] *)
  py_str : value -> string;
  (** [datetime.datetime.strptime(s, fmt).date()], as the ordinal of the
      date; [None] when [strptime] raises [ValueError]. *)
  strptime_date : string -> string -> option Z;
  (** [re.compile(src)]; [None] when it raises [re.error]. *)
  re_compile : string -> option Pattern;
  (** [c.isupper()] and the like *)
  py_chars : Chars;
  (** [\d], [\s] and the whitespace of [split] *)
  py_classes : Classes;
  (** [a == b] *)
  py_eq : value -> value -> bool
}.

(** [type(value).__name__] *)
Definition type_name (x : value) : string :=
  match x with
  | VNone => "NoneType"
  | VBool _ => "bool"
  | VInt _ => "int"
  | VFloat _ => "float"
  | VStr _ => "str"
  | VDate (PlainDate _) => "date"
  | VDate (DateTime _ _) => "datetime"
  | VList _ => "list"
  | VDict _ => "dict"
  end.

(** The truth value of a value, as [if value:] and [not value] take it. *)
Definition truthy (x : value) : bool :=
  match x with
  | VNone => false
  | VBool b => b
  | VInt z => negb (z =? 0)
  | VFloat (S754_zero _) => false
  | VFloat _ => true
  | VStr s => negb (String.eqb s "")
  | VDate _ => true
  | VList items => match items with [] => false | _ :: _ => true end
  | VDict entries => match entries with [] => false | _ :: _ => true end
  end.

(** Decimal rendering of an integer, as an f-string renders an [int]. *)
Definition str_of_Z (z : Z) : string := NilZero.string_of_int (Z.to_int z).

(** [sep.join(parts)] on strings. *)
Definition join (sep : string) (parts : list string) : string :=
  String.concat sep parts.

(** [sep.join(items)] on arbitrary values: [TypeError] as soon as one item is
    not a [str]. *)
Fixpoint str_items (items : list value) : outcome (list string) :=
  match items with
  | [] => Ok []
  | VStr s :: rest =>
      match str_items rest with
      | Ok ss => Ok (s :: ss)
      | Raise e => Raise e
      end
  | _ :: _ => Raise TypeError
  end.

Definition join_values (sep : string) (items : list value) : outcome string :=
  match str_items items with
  | Ok ss => Ok (join sep ss)
  | Raise e => Raise e
  end.

(** *** Numbers *)

(** Exact comparison of an [int] with a [float], as CPython does it.  [None]
    when the float is a NaN (every ordering test is then false). *)
Definition Z_SF_compare (z : Z) (f : spec_float) : option comparison :=
  match f with
  | S754_nan => None
  | S754_infinity negative => Some (if negative then Gt else Lt)
  | S754_zero _ => Some (z ?= 0)
  | S754_finite negative m e =>
      let sm := if negative then Z.neg m else Z.pos m in
      if 0 <=? e then Some (z ?= sm * 2 ^ e)
      else Some (z * 2 ^ (- e) ?= sm)
  end.

Definition num_compare (a b : num) : option comparison :=
  match a, b with
  | NInt x, NInt y => Some (x ?= y)
  | NFloat x, NFloat y => SFcompare x y
  | NInt x, NFloat y => Z_SF_compare x y
  | NFloat x, NInt y => option_map CompOpp (Z_SF_compare y x)
  end.

Definition num_lt (a b : num) : bool :=
  match num_compare a b with Some Lt => true | _ => false end.
Definition num_gt (a b : num) : bool :=
  match num_compare a b with Some Gt => true | _ => false end.
Definition num_eq (a b : num) : bool :=
  match num_compare a b with Some Eq => true | _ => false end.

(** *** Dates *)

(** [a < b] on dates.  Ordering a [datetime] against a plain [date] raises
    [TypeError] in Python: [None] here. *)
Definition date_lt (a b : dateval) : option bool :=
  match a, b with
  | PlainDate x, PlainDate y => Some (x <? y)
  | DateTime x t, DateTime y u => Some ((x <? y) || ((x =? y) && (t <? u)))
  | _, _ => None
  end.

Definition date_gt (a b : dateval) : option bool := date_lt b a.

(** *** Dictionaries *)

(** [value[field]] for a [str] field, [None] when [field not in value]. *)
Fixpoint dict_get (entries : list (value * value)) (field : string) : option value :=
  match entries with
  | [] => None
  | (VStr k, x) :: rest => if String.eqb k field then Some x else dict_get rest field
  | _ :: rest => dict_get rest field
  end.

(** [field in value] *)
Definition dict_has (entries : list (value * value)) (field : string) : bool :=
  match dict_get entries field with Some _ => true | None => false end.

(** [key in schema], where the keys of [schema] are strings: a key that is not
    a [str] is never one of them. *)
Definition key_in (names : list string) (key : value) : bool :=
  match key with
  | VStr k => existsb (String.eqb k) names
  | _ => false
  end.

(** ** Errors, results and the object store *)

(** [class ValidationError]: [message], [field], [details]. *)
Record ValidationError : Type := {
  message : string;
  field : option string;
  details : list (string * value)
}.

(** [ValidationError(message)] with [field=None] and no details. *)
Definition error_of (msg : string) : ValidationError :=
  {| message := msg; field := None; details := [] |}.

(** One [ValidationError] object in the store: its present attributes, and
    (ghost state, never read by the program) the attribute values it had
    before each assignment to it, most recent first. *)
Record cell : Type := {
  now : ValidationError;
  was : list ValidationError
}.

Abbreviation heap := (list cell).

(** [class ValidationResult]: [is_valid] and the list of (references to) its
    errors. *)
Record ValidationResult : Type := {
  is_valid : bool;
  errors : list nat
}.

(** [ValidationResult(is_valid)] *)
Definition new_result (valid : bool) : ValidationResult :=
  {| is_valid := valid; errors := [] |}.

(** [result.add_error(error)] *)
Definition add_error (result : ValidationResult) (error : nat) : ValidationResult :=
  {| is_valid := false; errors := errors result ++ [error] |}.

(** Computations that read and write the store and may raise. *)
Definition M (A : Type) : Type := heap -> outcome (A * heap).

Definition ret {A} (a : A) : M A := fun h => Ok (a, h).

Definition bind {A B} (m : M A) (k : A -> M B) : M B :=
  fun h =>
    match m h with
    | Ok (a, h') => k a h'
    | Raise e => Raise e
    end.

Definition raise {A} (e : exn) : M A := fun _ => Raise e.

Notation "'let*' x ':=' m 'in' k" := (bind m (fun x => k))
  (at level 10, x name, m at level 100, k at level 200).

(** Constructing an error object allocates it at the next free address. *)
Definition new_error (e : ValidationError) : M nat :=
  fun h => Ok (List.length h, h ++ [{| now := e; was := [] |}]).

(** [result.add_error(ValidationError(msg))] *)
Definition fail_with (result : ValidationResult) (msg : string) : M ValidationResult :=
  let* a := new_error (error_of msg) in ret (add_error result a).

(** The attributes of the object at an address. *)
Definition deref (h : heap) (a : nat) : ValidationError :=
  match h !! a with
  | Some c => now c
  | None => error_of ""
  end.

(** [[e.message for e in errs]] *)
Definition messages_of (errs : list nat) : M (list string) :=
  fun h => Ok (map (fun a => message (deref h a)) errs, h).

(** The value assigned by
    [error.field = prefix + (f".{error.field}" if error.field else "")]:
    an empty field is falsy, like [None]. *)
Definition prefixed (prefix : string) (e : ValidationError) : ValidationError :=
  {| message := message e;
     field := Some (prefix +:+
                    match field e with
                    | Some f => if String.eqb f "" then "" else "." +:+ f
                    | None => ""
                    end);
     details := details e |}.

(** The effect of the assignment on the object: the new attributes, and the
    old ones pushed on the history. *)
Definition reassign (prefix : string) (c : cell) : cell :=
  {| now := prefixed prefix (now c); was := now c :: was c |}.

(** The assignment itself, on the object at address [a]. *)
Definition set_field_prefixed (prefix : string) (a : nat) : M unit :=
  fun h => Ok (tt, alter (reassign prefix) a h).

(** [for error in child.errors: error.field = ...; result.add_error(error)] *)
Fixpoint aggregate (prefix : string) (errs : list nat) (result : ValidationResult)
  : M ValidationResult :=
  match errs with
  | [] => ret result
  | a :: rest =>
      let* _ := set_field_prefixed prefix a in
      aggregate prefix rest (add_error result a)
  end.

(** [if not child.is_valid: for error in child.errors: ...] *)
Definition absorb (prefix : string) (child result : ValidationResult) : M ValidationResult :=
  if is_valid child then ret result else aggregate prefix (errors child) result.

(** ** Validators *)

(** The attributes set by [StringValidator.__init__]; [str_pattern] is the
    compiled pattern. *)
Record StringConfig : Type := {
  str_min_length : Z;
  str_max_length : option Z;
  str_pattern : option Pattern;
  str_allowed_values : option (list string)
}.

(** The attributes set by [NumberValidator.__init__]. *)
Record NumberConfig : Type := {
  num_min_value : option num;
  num_max_value : option num;
  num_integer_only : bool;
  num_allow_negative : bool;
  num_allow_zero : bool
}.

(** The attributes set by [DateValidator.__init__]. *)
Record DateConfig : Type := {
  date_min_date : option dateval;
  date_max_date : option dateval;
  date_format_str : option string
}.

(** The attributes set by [PasswordValidator.__init__]. *)
Record PasswordConfig : Type := {
  pw_min_length : Z;
  pw_require_uppercase : bool;
  pw_require_lowercase : bool;
  pw_require_digit : bool;
  pw_require_special : bool
}.

(** The attributes set by [PhoneNumberValidator.__init__]. *)
Record PhoneConfig : Type := {
  phone_allow_international : bool;
  phone_country_code : option string
}.

(** The attributes set by [URLValidator.__init__]. *)
Record URLConfig : Type := {
  url_require_https : bool;
  url_allowed_domains : option (list string)
}.

(** The validator objects, by class, with the attributes their constructors
    store.  [JSONSchemaValidator] carries the [dict_validator] that its
    constructor builds.  The [validation_func] of a [CustomValidator] is the
    function of the value that its type, [Callable[[Any], Union[bool, str]]],
    declares: what it returns for a value, or the exception it raises.  (A
    function that keeps state from one call to the next is not of this kind;
    [stateful_custom_validate] below runs [CustomValidator.validate] over
    one.) *)
Inductive validator : Type :=
| StringValidator (c : StringConfig)
| NumberValidator (c : NumberConfig)
| BooleanValidator
| DateValidator (c : DateConfig)
| ListValidator (item_validator : option validator) (min_length : Z)
    (max_length : option Z) (unique_items : bool)
| DictValidator (schema : list (string * validator)) (required_fields : list string)
    (allow_unknown : bool)
| UnionValidator (validators : list validator)
| OptionalValidator (inner : validator)
| EmailValidator (allow_empty : bool)
| PasswordValidator (c : PasswordConfig)
| PhoneNumberValidator (c : PhoneConfig)
| URLValidator (c : URLConfig)
| CustomValidator (validation_func : value -> outcome value) (error_message : string)
| JSONSchemaValidator (dict_validator : validator).

(** A bound method [child.validate], as the composite validators call it. *)
Definition validate_fn : Type := value -> M ValidationResult.

Section Framework.

Context (lib : Lib).

(** An f-string's rendering of a numeric bound. *)
Definition str_of_num (n : num) : string :=
  match n with
  | NInt z => str_of_Z z
  | NFloat f => py_str lib (VFloat f)
  end.

(** *** [StringValidator.validate] *)
Definition string_validate (c : StringConfig) (value : value) : M ValidationResult :=
  let result := new_result true in
  match value with
  | VStr s =>
      let len := Z.of_nat (String.length s) in
      let* result :=
        if len <? str_min_length c
        then fail_with result ("String length must be at least "
                               +:+ str_of_Z (str_min_length c) +:+ " characters")
        else ret result in
      let* result :=
        match str_max_length c with
        | Some mx =>
            if mx <? len
            then fail_with result ("String length must not exceed "
                                   +:+ str_of_Z mx +:+ " characters")
            else ret result
        | None => ret result
        end in
      let* result :=
        match str_pattern c with
        | Some p =>
            if negb (pattern_match p s)
            then fail_with result ("String does not match required pattern "
                                   +:+ pattern_src p)
            else ret result
        | None => ret result
        end in
      let* result :=
        match str_allowed_values c with
        | Some (a :: allowed) =>
            if negb (existsb (String.eqb s) (a :: allowed))
            then fail_with result ("Value must be one of: " +:+ join ", " (a :: allowed))
            else ret result
        | _ => ret result
        end in
      ret result
  | _ => fail_with result ("Expected string but got " +:+ type_name value)
  end.

(** [isinstance(value, int)]: [bool] is a subclass of [int]. *)
Definition is_int (x : value) : bool :=
  match x with VInt _ | VBool _ => true | _ => false end.

(** The number a value stands for in the comparisons: defined on
    [isinstance(value, (int, float))]; [True] is 1 and [False] is 0. *)
Definition as_num (x : value) : option num :=
  match x with
  | VInt z => Some (NInt z)
  | VBool b => Some (NInt (if b then 1 else 0))
  | VFloat f => Some (NFloat f)
  | _ => None
  end.

(** *** [NumberValidator.validate] *)
Definition number_validate (c : NumberConfig) (value : value) : M ValidationResult :=
  let result := new_result true in
  if num_integer_only c && negb (is_int value)
  then fail_with result ("Expected integer but got " +:+ type_name value)
  else
    match as_num value with
    | None => fail_with result ("Expected number but got " +:+ type_name value)
    | Some n =>
        let* result :=
          match num_min_value c with
          | Some mn =>
              if num_lt n mn
              then fail_with result ("Value must be at least " +:+ str_of_num mn)
              else ret result
          | None => ret result
          end in
        let* result :=
          match num_max_value c with
          | Some mx =>
              if num_gt n mx
              then fail_with result ("Value must not exceed " +:+ str_of_num mx)
              else ret result
          | None => ret result
          end in
        let* result :=
          if negb (num_allow_negative c) && num_lt n (NInt 0)
          then fail_with result "Negative values are not allowed"
          else ret result in
        let* result :=
          if negb (num_allow_zero c) && num_eq n (NInt 0)
          then fail_with result "Zero value is not allowed"
          else ret result in
        ret result
    end.

(** *** [BooleanValidator.validate] *)
Definition boolean_validate (value : value) : M ValidationResult :=
  let result := new_result true in
  match value with
  | VBool _ => ret result
  | _ => fail_with result ("Expected boolean but got " +:+ type_name value)
  end.

(** The range checks of [DateValidator.validate], on a value that passed the
    type check. *)
Definition date_range (c : DateConfig) (d : dateval) (result : ValidationResult)
  : M ValidationResult :=
  let* result :=
    match date_min_date c with
    | Some mn =>
        match date_lt d mn with
        | Some true => fail_with result ("Date must be on or after " +:+ py_str lib (VDate mn))
        | Some false => ret result
        | None => raise TypeError
        end
    | None => ret result
    end in
  let* result :=
    match date_max_date c with
    | Some mx =>
        match date_gt d mx with
        | Some true => fail_with result ("Date must be on or before " +:+ py_str lib (VDate mx))
        | Some false => ret result
        | None => raise TypeError
        end
    | None => ret result
    end in
  ret result.

(** The guard [isinstance(value, str) and self.format_str]: the format of a
    [str] value to parse, when there is a non-empty one. *)
Definition date_parse_format (c : DateConfig) (value : value) : option (string * string) :=
  match value, date_format_str c with
  | VStr s, Some fmt => if String.eqb fmt "" then None else Some (s, fmt)
  | _, _ => None
  end.

(** *** [DateValidator.validate] *)
Definition date_validate (c : DateConfig) (value : value) : M ValidationResult :=
  let result := new_result true in
  match date_parse_format c value with
  | Some (s, fmt) =>
      match strptime_date lib s fmt with
      | Some ordinal => date_range c (PlainDate ordinal) result
      | None => fail_with result ("Date string does not match format " +:+ fmt)
      end
  | None =>
      match value with
      | VDate d => date_range c d result
      | _ => fail_with result ("Expected date but got " +:+ type_name value)
      end
  end.

(** The item loop of [ListValidator.validate], from index [i] on. *)
Fixpoint list_items (item_validate : validate_fn) (i : nat) (items : list value)
  (result : ValidationResult) : M ValidationResult :=
  match items with
  | [] => ret result
  | item :: rest =>
      let* item_result := item_validate item in
      let* result :=
        absorb ("[" +:+ str_of_Z (Z.of_nat i) +:+ "]") item_result result in
      list_items item_validate (S i) rest result
  end.

(** [len(value) != len(set(map(str, value)))] *)
Definition has_duplicates (items : list value) : bool :=
  negb (Nat.eqb (List.length items) (List.length (remove_dups (map (py_str lib) items)))).

(** *** [ListValidator.validate] *)
Definition list_validate (item_validate : option validate_fn) (min_length : Z)
  (max_length : option Z) (unique_items : bool) (value : value) : M ValidationResult :=
  let result := new_result true in
  match value with
  | VList items =>
      let len := Z.of_nat (List.length items) in
      let* result :=
        if len <? min_length
        then fail_with result ("List must contain at least "
                               +:+ str_of_Z min_length +:+ " items")
        else ret result in
      let* result :=
        match max_length with
        | Some mx =>
            if mx <? len
            then fail_with result ("List must not contain more than "
                                   +:+ str_of_Z mx +:+ " items")
            else ret result
        | None => ret result
        end in
      let* result :=
        if unique_items && has_duplicates items
        then fail_with result "List items must be unique"
        else ret result in
      match item_validate with
      | Some iv => list_items iv 0%nat items result
      | None => ret result
      end
  | _ => fail_with result ("Expected list but got " +:+ type_name value)
  end.

(** The field loop of [DictValidator.validate]. *)
Fixpoint dict_fields (fields : list (string * validate_fn)) (entries : list (value * value))
  (result : ValidationResult) : M ValidationResult :=
  match fields with
  | [] => ret result
  | (field, field_validate) :: rest =>
      let* result :=
        match dict_get entries field with
        | Some x =>
            let* field_result := field_validate x in
            absorb field field_result result
        | None => ret result
        end in
      dict_fields rest entries result
  end.

(** *** [DictValidator.validate] *)
Definition dict_validate (fields : list (string * validate_fn)) (required_fields : list string)
  (allow_unknown : bool) (value : value) : M ValidationResult :=
  let result := new_result true in
  match value with
  | VDict entries =>
      let missing_fields :=
        List.filter (fun field => negb (dict_has entries field)) required_fields in
      let* result :=
        match missing_fields with
        | _ :: _ => fail_with result ("Missing required fields: " +:+ join ", " missing_fields)
        | [] => ret result
        end in
      let* result :=
        if negb allow_unknown
        then
          let unknown_fields :=
            List.filter (fun key => negb (key_in (map fst fields) key)) (map fst entries) in
          match unknown_fields with
          | _ :: _ =>
              match join_values ", " unknown_fields with
              | Ok names => fail_with result ("Unknown fields: " +:+ names)
              | Raise e => raise e
              end
          | [] => ret result
          end
        else ret result in
      dict_fields fields entries result
  | _ => fail_with result ("Expected dictionary but got " +:+ type_name value)
  end.

(** The candidate loop of [UnionValidator.validate]: the result of the first
    candidate that accepts, or else the errors of all of them. *)
Fixpoint union_try (candidates : list validate_fn) (value : value) (all_errors : list nat)
  : M (ValidationResult + list nat) :=
  match candidates with
  | [] => ret (inr all_errors)
  | candidate :: rest =>
      let* result := candidate value in
      if is_valid result then ret (inl result)
      else union_try rest value (all_errors ++ errors result)
  end.

(** *** [UnionValidator.validate] *)
Definition union_validate (candidates : list validate_fn) (value : value) : M ValidationResult :=
  match candidates with
  | [] => ret (new_result true)
  | _ :: _ =>
      let* tried := union_try candidates value [] in
      match tried with
      | inl result => ret result
      | inr all_errors =>
          let* msgs := messages_of all_errors in
          let* a := new_error
            {| message := "Value did not match any of the expected types";
               field := None;
               details := [("errors", VList (map VStr msgs))] |} in
          ret (add_error (new_result false) a)
      end
  end.

(** *** [OptionalValidator.validate] *)
Definition optional_validate (inner : validate_fn) (value : value) : M ValidationResult :=
  match value with
  | VNone => ret (new_result true)
  | _ => inner value
  end.

(** *** [EmailValidator] *)

(** [[a-zA-Z0-9._%+-]] *)
Definition email_local_char (c : ascii) : bool :=
  is_ascii_letter c || is_ascii_digit c ||
  Ascii.eqb c "." || Ascii.eqb c "_" || Ascii.eqb c "%" || Ascii.eqb c "+" || Ascii.eqb c "-".

(** [[a-zA-Z0-9.-]] *)
Definition email_domain_char (c : ascii) : bool :=
  is_ascii_letter c || is_ascii_digit c || Ascii.eqb c "." || Ascii.eqb c "-".

(** The expression between [^] and [$] in [EMAIL_PATTERN]:
    [[a-zA-Z0-9._%+-]+@[a-zA-Z0-9.-]+\.[a-zA-Z]{2,}]. *)
Definition email_regex : regex :=
  Seq (Plus (Class email_local_char))
    (Seq (Lit "@")
       (Seq (Plus (Class email_domain_char))
          (Seq (Lit ".")
             (Seq (Class is_ascii_letter)
                (Seq (Class is_ascii_letter) (Star (Class is_ascii_letter))))))).

(** [EmailValidator.EMAIL_PATTERN], compiled. *)
Definition EMAIL_PATTERN : Pattern :=
  {| pattern_src := "^[a-zA-Z0-9._%+-]+@[a-zA-Z0-9.-]+\.[a-zA-Z]{2,}$";
     pattern_match := match_anchored email_regex |}.

(** The attributes set by [EmailValidator.__init__] through
    [StringValidator.__init__]. *)
Definition email_config (allow_empty : bool) : StringConfig :=
  {| str_min_length := if allow_empty then 0 else 1;
     str_max_length := None;
     str_pattern := Some EMAIL_PATTERN;
     str_allowed_values := None |}.

(** [EmailValidator.validate].  The additional checks run when the result of
    [StringValidator.validate] is valid and the value is not empty; the value
    is then a string (on any other value the membership test would fail, but
    the result of the base class is never valid for one). *)
Definition email_validate (allow_empty : bool) (value : value) : M ValidationResult :=
  let* result := string_validate (email_config allow_empty) value in
  if is_valid result then
    match value with
    | VStr s =>
        if negb (String.eqb s "") then
          let* result :=
            if str_contains ".." s
            then fail_with result "Email cannot contain consecutive dots"
            else ret result in
          let parts := split_char "@" s in
          let* result :=
            if Nat.eqb (List.length parts) 2 && negb (str_contains "." (nth 1 parts ""))
            then fail_with result "Email domain must contain at least one dot"
            else ret result in
          ret result
        else ret result
    | _ => raise TypeError
    end
  else ret result.

(** *** [PasswordValidator] *)

(** [super().__init__(min_length=min_length)] *)
Definition password_string_config (c : PasswordConfig) : StringConfig :=
  {| str_min_length := pw_min_length c;
     str_max_length := None;
     str_pattern := None;
     str_allowed_values := None |}.

(** [PasswordValidator.validate] *)
Definition password_validate (chars : Chars) (c : PasswordConfig) (value : value)
  : M ValidationResult :=
  let* result := string_validate (password_string_config c) value in
  match value with
  | VStr s =>
      let* result :=
        if pw_require_uppercase c && negb (any_char (isupper chars) s)
        then fail_with result "Password must contain at least one uppercase letter"
        else ret result in
      let* result :=
        if pw_require_lowercase c && negb (any_char (islower chars) s)
        then fail_with result "Password must contain at least one lowercase letter"
        else ret result in
      let* result :=
        if pw_require_digit c && negb (any_char (isdigit chars) s)
        then fail_with result "Password must contain at least one digit"
        else ret result in
      let* result :=
        if pw_require_special c && negb (any_char (fun ch => negb (isalnum chars ch)) s)
        then fail_with result "Password must contain at least one special character"
        else ret result in
      ret result
  | _ => ret result
  end.

(** *** [PhoneNumberValidator] *)

(** [[\d\s\(\)\-\+\.]] *)
Definition phone_char (c : ascii) : bool :=
  re_digit (py_classes lib) c || re_space (py_classes lib) c ||
  Ascii.eqb c "(" || Ascii.eqb c ")" || Ascii.eqb c "-" || Ascii.eqb c "+" || Ascii.eqb c ".".

(** The expressions between [^] and [$] in [basic_pattern],
    [[\d\s\(\)\-\+\.]+], and in [e164_pattern], [\+\d{1,3}\d{6,14}]. *)
Definition basic_regex : regex := Plus (Class phone_char).

Definition e164_regex : regex :=
  Seq (Lit "+")
    (Seq (Between 1 3 (Class (re_digit (py_classes lib))))
       (Between 6 14 (Class (re_digit (py_classes lib))))).

(** [PhoneNumberValidator.validate] *)
Definition phone_validate (c : PhoneConfig) (value : value) : M ValidationResult :=
  let result := new_result true in
  match value with
  | VStr s =>
      let clean_value := filter_chars (fun ch => negb (whitespace (py_classes lib) ch)) s in
      if negb (match_anchored basic_regex s)
      then fail_with result "Phone number contains invalid characters"
      else
        let digits := filter_chars (isdigit (py_chars lib)) clean_value in
        let* result :=
          if (String.length digits <? 7)%nat || (15 <? String.length digits)%nat
          then fail_with result "Phone number must contain between 7 and 15 digits"
          else ret result in
        let* result :=
          if String.prefix "+" clean_value then
            if negb (phone_allow_international c)
            then fail_with result "International phone numbers are not allowed"
            else if negb (match_anchored e164_regex clean_value)
            then fail_with result "International phone number must be in E.164 format"
            else
              match phone_country_code c with
              | Some code =>
                  if negb (String.eqb code "") && negb (String.prefix ("+" +:+ code) clean_value)
                  then fail_with result ("Phone number must start with country code +" +:+ code)
                  else ret result
              | None => ret result
              end
          else ret result in
        ret result
  | _ => fail_with result ("Expected string but got " +:+ type_name value)
  end.

(** *** [URLValidator] *)

(** [[a-zA-Z0-9]], [[a-zA-Z0-9\-]] and [[-a-zA-Z0-9_%\.~#?&=]] *)
Definition url_alnum (c : ascii) : bool := is_ascii_letter c || is_ascii_digit c.

Definition url_label_char (c : ascii) : bool := url_alnum c || Ascii.eqb c "-".

Definition url_path_char (c : ascii) : bool :=
  Ascii.eqb c "-" || url_alnum c || Ascii.eqb c "_" || Ascii.eqb c "%" || Ascii.eqb c "." ||
  Ascii.eqb c "~" || Ascii.eqb c "#" || Ascii.eqb c "?" || Ascii.eqb c "&" || Ascii.eqb c "=".

(** [([a-zA-Z0-9]|[a-zA-Z0-9][a-zA-Z0-9\-]*[a-zA-Z0-9])] *)
Definition url_label : regex :=
  Alt (Class url_alnum)
    (Seq (Class url_alnum) (Seq (Star (Class url_label_char)) (Class url_alnum))).

(** The expression between [^] and [$] in [URL_PATTERN]: the protocol, the
    subdomains, the domain name, the top-level domain, the optional port, and
    the path and query. *)
Definition url_regex : regex :=
  Seq (Seq (Word "http") (Seq (Opt (Lit "s")) (Word "://")))
    (Seq (Star (Seq url_label (Lit ".")))
       (Seq url_label
          (Seq (Seq (Lit ".")
                  (Seq (Class is_ascii_letter)
                     (Seq (Class is_ascii_letter) (Star (Class is_ascii_letter)))))
             (Seq (Opt (Seq (Lit ":") (Plus (Class is_ascii_digit))))
                (Star (Seq (Lit "/") (Star (Class url_path_char)))))))).

(** [URLValidator.URL_PATTERN], compiled. *)
Definition URL_PATTERN : Pattern :=
  {| pattern_src :=
       "^(https?:\/\/)(([a-zA-Z0-9]|[a-zA-Z0-9][a-zA-Z0-9\-]*[a-zA-Z0-9])\.)*"
       +:+ "([a-zA-Z0-9]|[a-zA-Z0-9][a-zA-Z0-9\-]*[a-zA-Z0-9])\.[a-zA-Z]{2,}"
       +:+ "(\:[0-9]+)?(\/[-a-zA-Z0-9_%\.~#?&=]*)*$";
     pattern_match := match_anchored url_regex |}.

(** [super().__init__(pattern=self.URL_PATTERN)] *)
Definition url_config : StringConfig :=
  {| str_min_length := 0;
     str_max_length := None;
     str_pattern := Some URL_PATTERN;
     str_allowed_values := None |}.

(** [value.split('://', 1)[1].split('/', 1)[0].split(':', 1)[0]] *)
Definition url_domain (s : string) : outcome string :=
  match item (split_once "://" s) 1 with
  | Ok rest =>
      match item (split_once "/" rest) 0 with
      | Ok host => item (split_once ":" host) 0
      | Raise e => Raise e
      end
  | Raise e => Raise e
  end.

(** [URLValidator.validate] *)
Definition url_validate (c : URLConfig) (value : value) : M ValidationResult :=
  let* result := string_validate url_config value in
  match value with
  | VStr s =>
      if negb (is_valid result) then ret result
      else
        let* result :=
          if url_require_https c && negb (String.prefix "https://" s)
          then fail_with result "URL must use HTTPS protocol"
          else ret result in
        let* result :=
          match url_allowed_domains c with
          | Some (d :: ds) =>
              match url_domain s with
              | Ok domain =>
                  if negb (existsb
                             (fun allowed_domain =>
                                String.eqb domain allowed_domain ||
                                ends_with ("." +:+ allowed_domain) domain)
                             (d :: ds))
                  then fail_with result
                         ("URL domain must be one of: " +:+ join ", " (d :: ds))
                  else ret result
              | Raise e => raise e
              end
          | _ => ret result
          end in
        ret result
  | _ => ret result
  end.

(** *** [CustomValidator] *)

(** [CustomValidator.validate] after the call of [validation_func], on what
    the function returned: [False] is an error with the [error_message] of
    the validator, a non-empty string is an error with that string as its
    message, and anything else is no error. *)
Definition custom_conclude (error_message : string) (validation_result : value)
  : M ValidationResult :=
  let result := new_result true in
  match validation_result with
  | VBool b => if negb b then fail_with result error_message else ret result
  | VStr s => if negb (String.eqb s "") then fail_with result s else ret result
  | _ => ret result
  end.

(** [CustomValidator.validate]: an exception of [validation_func] is not
    caught. *)
Definition custom_validate (validation_func : value -> outcome value)
  (error_message : string) (value : value) : M ValidationResult :=
  match validation_func value with
  | Ok validation_result => custom_conclude error_message validation_result
  | Raise e => raise e
  end.

(** *** [validate], dispatched on the class of the validator *)
Fixpoint validate (v : validator) : validate_fn :=
  match v with
  | StringValidator c => string_validate c
  | NumberValidator c => number_validate c
  | BooleanValidator => boolean_validate
  | DateValidator c => date_validate c
  | ListValidator item_validator min_length max_length unique_items =>
      list_validate
        match item_validator with Some iv => Some (validate iv) | None => None end
        min_length max_length unique_items
  | DictValidator schema required_fields allow_unknown =>
      dict_validate (map (fun fv => (fst fv, validate (snd fv))) schema)
        required_fields allow_unknown
  | UnionValidator validators => union_validate (map validate validators)
  | OptionalValidator inner => optional_validate (validate inner)
  | EmailValidator allow_empty => email_validate allow_empty
  | PasswordValidator c => password_validate (py_chars lib) c
  | PhoneNumberValidator c => phone_validate c
  | URLValidator c => url_validate c
  | CustomValidator validation_func error_message =>
      custom_validate validation_func error_message
  | JSONSchemaValidator dict_validator => validate dict_validator
  end.

End Framework.

(** ** Schema-driven construction *)

(** A schema description: the mapping given to [JSONSchemaValidator], one
    component per key the constructor reads, [None] (or the empty list, for
    [properties] and [required]) when the key is absent. *)
Inductive jschema : Type :=
| JSchema
    (type : option string)
    (properties : list (string * jschema))
    (required : list string)
    (additionalProperties : option bool)
    (minLength maxLength : option Z)
    (pattern : option string)
    (enum : option (list string))
    (minimum maximum : option num)
    (items : option jschema)
    (minItems maxItems : option Z)
    (uniqueItems : option bool).

(** [Validator()]: [Validator] is an abstract base class whose [validate] is
    an [@abstractmethod], so instantiating it raises [TypeError]. *)
Definition abstract_methods_of_Validator : list string := ["validate"].

Definition new_Validator : outcome validator :=
  match abstract_methods_of_Validator with
  | _ :: _ => Raise TypeError
  | [] => Ok (UnionValidator [])
  end.

Definition is_type (tag : string) (type : option string) : bool :=
  match type with
  | Some t => String.eqb t tag
  | None => false
  end.

Section Construction.

Context (lib : Lib).

(** [StringValidator(min_length, max_length, pattern, allowed_values)], whose
    constructor compiles a pattern given as a string. *)
Definition new_StringValidator (min_length : Z) (max_length : option Z)
  (pattern : option string) (allowed_values : option (list string)) : outcome validator :=
  match pattern with
  | Some src =>
      match re_compile lib src with
      | Some p => Ok (StringValidator
                        {| str_min_length := min_length; str_max_length := max_length;
                           str_pattern := Some p; str_allowed_values := allowed_values |})
      | None => Raise ReError
      end
  | None => Ok (StringValidator
                  {| str_min_length := min_length; str_max_length := max_length;
                     str_pattern := None; str_allowed_values := allowed_values |})
  end.

(** [NumberValidator(min_value, max_value, integer_only)] *)
Definition new_NumberValidator (min_value max_value : option num) (integer_only : bool)
  : validator :=
  NumberValidator
    {| num_min_value := min_value; num_max_value := max_value;
       num_integer_only := integer_only;
       num_allow_negative := true; num_allow_zero := true |}.

(** The loop of [JSONSchemaValidator._build_validator_from_schema] over the
    properties of a schema: it returns the [schema_validators] and the
    [required_fields] it collects.  In the source the loop body repeats, branch
    for branch, the body of [_create_validator_for_schema] applied to
    [field_schema]; [create] stands for it. *)
Definition build_fields (create : jschema -> outcome validator) (required : list string)
  : list (string * jschema) -> outcome (list (string * validator) * list string) :=
  fix loop (properties : list (string * jschema)) :=
    match properties with
    | [] => Ok ([], [])
    | (field_name, field_schema) :: rest =>
        match create field_schema with
        | Ok validator =>
            match loop rest with
            | Ok (schema_validators, required_fields) =>
                Ok ((field_name, validator) :: schema_validators,
                    if existsb (String.eqb field_name) required
                    then field_name :: required_fields else required_fields)
            | Raise e => Raise e
            end
        | Raise e => Raise e
        end
    end.

(** [JSONSchemaValidator._create_validator_for_schema].  In the [object]
    branch, [JSONSchemaValidator(nested_schema)] is built from the
    [properties] and [required] keys only, so unknown fields are rejected
    ([allow_unknown = not True]). *)
Fixpoint create_validator_for_schema (schema : jschema) : outcome validator :=
  match schema with
  | JSchema type properties required _ minLength maxLength pattern enum
      minimum maximum items minItems maxItems uniqueItems =>
      if is_type "string" type then
        new_StringValidator (default 0 minLength) maxLength pattern enum
      else if is_type "number" type || is_type "integer" type then
        Ok (new_NumberValidator minimum maximum (is_type "integer" type))
      else if is_type "boolean" type then
        Ok BooleanValidator
      else if is_type "array" type then
        match
          match items with
          | Some items_schema => create_validator_for_schema items_schema
          | None => new_Validator
          end
        with
        | Ok item_validator =>
            Ok (ListValidator (Some item_validator) (default 0 minItems) maxItems
                  (default false uniqueItems))
        | Raise e => Raise e
        end
      else if is_type "object" type then
        match build_fields create_validator_for_schema required properties with
        | Ok (schema_validators, required_fields) =>
            Ok (JSONSchemaValidator
                  (DictValidator schema_validators required_fields (negb true)))
        | Raise e => Raise e
        end
      else new_Validator
  end.

(** [JSONSchemaValidator(schema)]: the constructor runs
    [_build_validator_from_schema] and keeps the [DictValidator] it makes. *)
Definition new_JSONSchemaValidator (schema : jschema) : outcome validator :=
  match schema with
  | JSchema _ properties required additionalProperties _ _ _ _ _ _ _ _ _ _ =>
      match build_fields create_validator_for_schema required properties with
      | Ok (schema_validators, required_fields) =>
          Ok (JSONSchemaValidator
                (DictValidator schema_validators required_fields
                   (negb (default true additionalProperties))))
      | Raise e => Raise e
      end
  end.

End Construction.

(** ** What a caller observes *)

(** The errors of a result, read through the store. *)
Definition view (h : heap) (result : ValidationResult) : list ValidationError :=
  map (deref h) (errors result).

(** A call of [v.validate(x)] in a fresh store: the exception it raises, or
    the validity of its result and the errors in it. *)
Definition run (lib : Lib) (v : validator) (x : value)
  : outcome (bool * list ValidationError) :=
  match validate lib v x [] with
  | Ok (result, h) => Ok (is_valid result, view h result)
  | Raise e => Raise e
  end.

(** ** A fragment of the Python runtime, for the examples

    The theorems hold for every [Lib].  The closed examples need one: this
    one answers as CPython does on the arguments listed with each function,
    which are the only ones the examples reach; elsewhere its answers are
    placeholders. *)

(** [str(x)] for [None], booleans, integers and strings. *)
Definition example_str (x : value) : string :=
  match x with
  | VNone => "None"
  | VBool true => "True"
  | VBool false => "False"
  | VInt z => str_of_Z z
  | VStr s => s
  | _ => "<" +:+ type_name x +:+ ">"
  end.

(** [strptime("2024-01-15", "%Y-%m-%d").date()], the date of ordinal 738900. *)
Definition example_strptime (s fmt : string) : option Z :=
  if String.eqb fmt "%Y-%m-%d" && String.eqb s "2024-01-15" then Some 738900
  else None.

(** [[a-zA-Z0-9_-]] *)
Definition username_char (c : ascii) : bool :=
  is_ascii_letter c || is_ascii_digit c || Ascii.eqb c "_" || Ascii.eqb c "-".

(** [re.compile("")], which matches every string, and
    [re.compile("^[a-zA-Z0-9_-]+$")]. *)
Definition example_compile (src : string) : option Pattern :=
  if String.eqb src "" then Some {| pattern_src := ""; pattern_match := fun _ => true |}
  else if String.eqb src "^[a-zA-Z0-9_-]+$"
  then Some {| pattern_src := src; pattern_match := match_anchored (Plus (Class username_char)) |}
  else None.

(** The methods of [str] and the classes of [re] on ASCII characters. *)
Definition example_chars : Chars :=
  {| isupper := in_range "A" "Z";
     islower := in_range "a" "z";
     isdigit := is_ascii_digit;
     isalnum := fun c => is_ascii_letter c || is_ascii_digit c |}.

Definition ascii_space (c : ascii) : bool :=
  Ascii.eqb c " " || in_range "009" "013" c || in_range "028" "031" c.

Definition example_classes : Classes :=
  {| re_digit := is_ascii_digit;
     re_space := ascii_space;
     whitespace := ascii_space |}.

(** [a == b] on two strings, and on [None] and a string. *)
Definition example_eq (a b : value) : bool :=
  match a, b with
  | VStr s, VStr t => String.eqb s t
  | VNone, VNone => true
  | _, _ => false
  end.

Definition example_lib : Lib :=
  {| py_str := example_str;
     strptime_date := example_strptime;
     re_compile := example_compile;
     py_chars := example_chars;
     py_classes := example_classes;
     py_eq := example_eq |}.

(** ** The same methods, computed without a store

    [Pure.validate] follows [validate] statement by statement but builds the
    errors of a result as values: an assignment to [error.field] becomes a
    copy with the new field.  It is the reference against which the store
    computation is measured ([run_pure] below): what a caller observes of
    [validate] is exactly what [Pure.validate] returns. *)
Module Pure.

(** The validity and the errors of a result. *)
Definition res : Type := bool * list ValidationError.

Definition new_result (valid : bool) : res := (valid, []).

Definition add_error (r : res) (e : ValidationError) : res := (false, r.2 ++ [e]).

Definition fail_with (r : res) (msg : string) : res := add_error r (error_of msg).

Definition aggregate (prefix : string) (errs : list ValidationError) (r : res) : res :=
  fold_left (fun acc e => add_error acc (prefixed prefix e)) errs r.

Definition absorb (prefix : string) (child r : res) : res :=
  if child.1 then r else aggregate prefix child.2 r.

Definition validate_fn : Type := value -> outcome res.

Section PureFramework.

Context (lib : Lib).

Definition string_validate (c : StringConfig) (value : value) : outcome res :=
  let result := new_result true in
  match value with
  | VStr s =>
      let len := Z.of_nat (String.length s) in
      let result :=
        if len <? str_min_length c
        then fail_with result ("String length must be at least "
                               +:+ str_of_Z (str_min_length c) +:+ " characters")
        else result in
      let result :=
        match str_max_length c with
        | Some mx =>
            if mx <? len
            then fail_with result ("String length must not exceed "
                                   +:+ str_of_Z mx +:+ " characters")
            else result
        | None => result
        end in
      let result :=
        match str_pattern c with
        | Some p =>
            if negb (pattern_match p s)
            then fail_with result ("String does not match required pattern "
                                   +:+ pattern_src p)
            else result
        | None => result
        end in
      let result :=
        match str_allowed_values c with
        | Some (a :: allowed) =>
            if negb (existsb (String.eqb s) (a :: allowed))
            then fail_with result ("Value must be one of: " +:+ join ", " (a :: allowed))
            else result
        | _ => result
        end in
      Ok result
  | _ => Ok (fail_with result ("Expected string but got " +:+ type_name value))
  end.

Definition number_validate (c : NumberConfig) (value : value) : outcome res :=
  let result := new_result true in
  if num_integer_only c && negb (is_int value)
  then Ok (fail_with result ("Expected integer but got " +:+ type_name value))
  else
    match as_num value with
    | None => Ok (fail_with result ("Expected number but got " +:+ type_name value))
    | Some n =>
        let result :=
          match num_min_value c with
          | Some mn =>
              if num_lt n mn
              then fail_with result ("Value must be at least " +:+ str_of_num lib mn)
              else result
          | None => result
          end in
        let result :=
          match num_max_value c with
          | Some mx =>
              if num_gt n mx
              then fail_with result ("Value must not exceed " +:+ str_of_num lib mx)
              else result
          | None => result
          end in
        let result :=
          if negb (num_allow_negative c) && num_lt n (NInt 0)
          then fail_with result "Negative values are not allowed"
          else result in
        let result :=
          if negb (num_allow_zero c) && num_eq n (NInt 0)
          then fail_with result "Zero value is not allowed"
          else result in
        Ok result
    end.

Definition boolean_validate (value : value) : outcome res :=
  let result := new_result true in
  match value with
  | VBool _ => Ok result
  | _ => Ok (fail_with result ("Expected boolean but got " +:+ type_name value))
  end.

Definition date_range (c : DateConfig) (d : dateval) (result : res) : outcome res :=
  match
    match date_min_date c with
    | Some mn =>
        match date_lt d mn with
        | Some true =>
            Ok (fail_with result ("Date must be on or after " +:+ py_str lib (VDate mn)))
        | Some false => Ok result
        | None => Raise TypeError
        end
    | None => Ok result
    end
  with
  | Ok result =>
      match date_max_date c with
      | Some mx =>
          match date_gt d mx with
          | Some true =>
              Ok (fail_with result ("Date must be on or before " +:+ py_str lib (VDate mx)))
          | Some false => Ok result
          | None => Raise TypeError
          end
      | None => Ok result
      end
  | Raise e => Raise e
  end.

Definition date_validate (c : DateConfig) (value : value) : outcome res :=
  let result := new_result true in
  match date_parse_format c value with
  | Some (s, fmt) =>
      match strptime_date lib s fmt with
      | Some ordinal => date_range c (PlainDate ordinal) result
      | None => Ok (fail_with result ("Date string does not match format " +:+ fmt))
      end
  | None =>
      match value with
      | VDate d => date_range c d result
      | _ => Ok (fail_with result ("Expected date but got " +:+ type_name value))
      end
  end.

Fixpoint list_items (item_validate : validate_fn) (i : nat) (items : list value)
  (result : res) : outcome res :=
  match items with
  | [] => Ok result
  | item :: rest =>
      match item_validate item with
      | Ok item_result =>
          list_items item_validate (S i) rest
            (absorb ("[" +:+ str_of_Z (Z.of_nat i) +:+ "]") item_result result)
      | Raise e => Raise e
      end
  end.

(** The errors [ListValidator.validate] reports before it looks at the
    items. *)
Definition list_header (min_length : Z) (max_length : option Z) (unique_items : bool)
  (items : list value) : res :=
  let result := new_result true in
  let len := Z.of_nat (List.length items) in
  let result :=
    if len <? min_length
    then fail_with result ("List must contain at least "
                           +:+ str_of_Z min_length +:+ " items")
    else result in
  let result :=
    match max_length with
    | Some mx =>
        if mx <? len
        then fail_with result ("List must not contain more than "
                               +:+ str_of_Z mx +:+ " items")
        else result
    | None => result
    end in
  let result :=
    if unique_items && has_duplicates lib items
    then fail_with result "List items must be unique"
    else result in
  result.

Definition list_validate (item_validate : option validate_fn) (min_length : Z)
  (max_length : option Z) (unique_items : bool) (value : value) : outcome res :=
  match value with
  | VList items =>
      let result := list_header min_length max_length unique_items items in
      match item_validate with
      | Some iv => list_items iv 0%nat items result
      | None => Ok result
      end
  | _ => Ok (fail_with (new_result true) ("Expected list but got " +:+ type_name value))
  end.

Fixpoint dict_fields (fields : list (string * validate_fn)) (entries : list (value * value))
  (result : res) : outcome res :=
  match fields with
  | [] => Ok result
  | (field, field_validate) :: rest =>
      match dict_get entries field with
      | Some x =>
          match field_validate x with
          | Ok field_result => dict_fields rest entries (absorb field field_result result)
          | Raise e => Raise e
          end
      | None => dict_fields rest entries result
      end
  end.

(** The errors [DictValidator.validate] reports before it looks at the
    fields, for a schema with the given field names. *)
Definition dict_header (names : list string) (required_fields : list string)
  (allow_unknown : bool) (entries : list (value * value)) : outcome res :=
  let result := new_result true in
  let missing_fields :=
    List.filter (fun field => negb (dict_has entries field)) required_fields in
  let result :=
    match missing_fields with
    | _ :: _ => fail_with result ("Missing required fields: " +:+ join ", " missing_fields)
    | [] => result
    end in
  if negb allow_unknown
  then
    let unknown_fields :=
      List.filter (fun key => negb (key_in names key)) (map fst entries) in
    match unknown_fields with
    | _ :: _ =>
        match join_values ", " unknown_fields with
        | Ok names => Ok (fail_with result ("Unknown fields: " +:+ names))
        | Raise e => Raise e
        end
    | [] => Ok result
    end
  else Ok result.

Definition dict_validate (fields : list (string * validate_fn)) (required_fields : list string)
  (allow_unknown : bool) (value : value) : outcome res :=
  match value with
  | VDict entries =>
      match dict_header (map fst fields) required_fields allow_unknown entries with
      | Ok result => dict_fields fields entries result
      | Raise e => Raise e
      end
  | _ => Ok (fail_with (new_result true) ("Expected dictionary but got " +:+ type_name value))
  end.

Fixpoint union_try (candidates : list validate_fn) (value : value)
  (all_errors : list ValidationError) : outcome (res + list ValidationError) :=
  match candidates with
  | [] => Ok (inr all_errors)
  | candidate :: rest =>
      match candidate value with
      | Ok result =>
          if result.1 then Ok (inl result)
          else union_try rest value (all_errors ++ result.2)
      | Raise e => Raise e
      end
  end.

(** The aggregate error of a union none of whose candidates accepted. *)
Definition union_error (all_errors : list ValidationError) : ValidationError :=
  {| message := "Value did not match any of the expected types";
     field := None;
     details := [("errors", VList (map VStr (map message all_errors)))] |}.

Definition union_validate (candidates : list validate_fn) (value : value) : outcome res :=
  match candidates with
  | [] => Ok (new_result true)
  | _ :: _ =>
      match union_try candidates value [] with
      | Ok (inl result) => Ok result
      | Ok (inr all_errors) => Ok (add_error (new_result false) (union_error all_errors))
      | Raise e => Raise e
      end
  end.

Definition optional_validate (inner : validate_fn) (value : value) : outcome res :=
  match value with
  | VNone => Ok (new_result true)
  | _ => inner value
  end.

Definition email_validate (allow_empty : bool) (value : value) : outcome res :=
  match string_validate (email_config allow_empty) value with
  | Ok result =>
      if result.1 then
        match value with
        | VStr s =>
            if negb (String.eqb s "") then
              let result :=
                if str_contains ".." s
                then fail_with result "Email cannot contain consecutive dots"
                else result in
              let parts := split_char "@" s in
              let result :=
                if Nat.eqb (List.length parts) 2 && negb (str_contains "." (nth 1 parts ""))
                then fail_with result "Email domain must contain at least one dot"
                else result in
              Ok result
            else Ok result
        | _ => Raise TypeError
        end
      else Ok result
  | Raise e => Raise e
  end.

Definition password_validate (chars : Chars) (c : PasswordConfig) (value : value)
  : outcome res :=
  match string_validate (password_string_config c) value with
  | Ok result =>
      match value with
      | VStr s =>
          let result :=
            if pw_require_uppercase c && negb (any_char (isupper chars) s)
            then fail_with result "Password must contain at least one uppercase letter"
            else result in
          let result :=
            if pw_require_lowercase c && negb (any_char (islower chars) s)
            then fail_with result "Password must contain at least one lowercase letter"
            else result in
          let result :=
            if pw_require_digit c && negb (any_char (isdigit chars) s)
            then fail_with result "Password must contain at least one digit"
            else result in
          let result :=
            if pw_require_special c && negb (any_char (fun ch => negb (isalnum chars ch)) s)
            then fail_with result "Password must contain at least one special character"
            else result in
          Ok result
      | _ => Ok result
      end
  | Raise e => Raise e
  end.

Definition phone_validate (c : PhoneConfig) (value : value) : outcome res :=
  let result := new_result true in
  match value with
  | VStr s =>
      let clean_value := filter_chars (fun ch => negb (whitespace (py_classes lib) ch)) s in
      if negb (match_anchored (basic_regex lib) s)
      then Ok (fail_with result "Phone number contains invalid characters")
      else
        let digits := filter_chars (isdigit (py_chars lib)) clean_value in
        let result :=
          if (String.length digits <? 7)%nat || (15 <? String.length digits)%nat
          then fail_with result "Phone number must contain between 7 and 15 digits"
          else result in
        let result :=
          if String.prefix "+" clean_value then
            if negb (phone_allow_international c)
            then fail_with result "International phone numbers are not allowed"
            else if negb (match_anchored (e164_regex lib) clean_value)
            then fail_with result "International phone number must be in E.164 format"
            else
              match phone_country_code c with
              | Some code =>
                  if negb (String.eqb code "") && negb (String.prefix ("+" +:+ code) clean_value)
                  then fail_with result ("Phone number must start with country code +" +:+ code)
                  else result
              | None => result
              end
          else result in
        Ok result
  | _ => Ok (fail_with result ("Expected string but got " +:+ type_name value))
  end.

(** The checks of [URLValidator.validate] on a string that matched the
    pattern. *)
Definition url_checks (c : URLConfig) (s : string) (result : res) : outcome res :=
  let result :=
    if url_require_https c && negb (String.prefix "https://" s)
    then fail_with result "URL must use HTTPS protocol"
    else result in
  match url_allowed_domains c with
  | Some (d :: ds) =>
      match url_domain s with
      | Ok domain =>
          if negb (existsb
                     (fun allowed_domain =>
                        String.eqb domain allowed_domain ||
                        ends_with ("." +:+ allowed_domain) domain)
                     (d :: ds))
          then Ok (fail_with result ("URL domain must be one of: " +:+ join ", " (d :: ds)))
          else Ok result
      | Raise e => Raise e
      end
  | _ => Ok result
  end.

Definition url_validate (c : URLConfig) (value : value) : outcome res :=
  match string_validate url_config value with
  | Ok result =>
      match value with
      | VStr s => if negb result.1 then Ok result else url_checks c s result
      | _ => Ok result
      end
  | Raise e => Raise e
  end.

Definition custom_conclude (error_message : string) (validation_result : value) : res :=
  let result := new_result true in
  match validation_result with
  | VBool b => if negb b then fail_with result error_message else result
  | VStr s => if negb (String.eqb s "") then fail_with result s else result
  | _ => result
  end.

Definition custom_validate (validation_func : value -> outcome value)
  (error_message : string) (value : value) : outcome res :=
  match validation_func value with
  | Ok validation_result => Ok (custom_conclude error_message validation_result)
  | Raise e => Raise e
  end.

Fixpoint validate (v : validator) : validate_fn :=
  match v with
  | StringValidator c => string_validate c
  | NumberValidator c => number_validate c
  | BooleanValidator => boolean_validate
  | DateValidator c => date_validate c
  | ListValidator item_validator min_length max_length unique_items =>
      list_validate
        match item_validator with Some iv => Some (validate iv) | None => None end
        min_length max_length unique_items
  | DictValidator schema required_fields allow_unknown =>
      dict_validate (map (fun fv => (fst fv, validate (snd fv))) schema)
        required_fields allow_unknown
  | UnionValidator validators => union_validate (map validate validators)
  | OptionalValidator inner => optional_validate (validate inner)
  | EmailValidator allow_empty => email_validate allow_empty
  | PasswordValidator c => password_validate (py_chars lib) c
  | PhoneNumberValidator c => phone_validate c
  | URLValidator c => url_validate c
  | CustomValidator validation_func error_message =>
      custom_validate validation_func error_message
  | JSONSchemaValidator dict_validator => validate dict_validator
  end.

End PureFramework.

End Pure.

(** ** Invariants of the store *)

(** [history e past]: an object whose attributes are [e] got them from the
    earlier attributes [past] (most recent first) by assignments that each
    replaced the field by a prefixed one, and changed nothing else. *)
Inductive history : ValidationError -> list ValidationError -> Prop :=
| history_new e : history e []
| history_assign prefix e past : history e past -> history (prefixed prefix e) (e :: past).

Definition cell_ok (c : cell) : Prop := history (now c) (was c).

(** [h'] is [h] with new objects allocated after it; the objects of [h] are
    untouched. *)
Definition extends (h h' : heap) : Prop :=
  exists news, h' = h ++ news /\ Forall cell_ok news.

(** The result [r], read in the store [h], is the pure result [p], and its
    errors are distinct objects allocated since the store was [h0]. *)
Definition good (h0 h : heap) (p : Pure.res) (r : ValidationResult) : Prop :=
  is_valid r = p.1 /\
  view h r = p.2 /\
  Forall (fun a => (List.length h0 <= a < List.length h)%nat) (errors r) /\
  NoDup (errors r) /\
  (p.1 = true <-> p.2 = []).

(** The store after the assignments of [aggregate]. *)
Definition reassign_all (prefix : string) (errs : list nat) (h : heap) : heap :=
  fold_left (fun h a => alter (reassign prefix) a h) errs h.

(** The computation [m], started in [h], does what the pure computation [pm]
    says: it raises the same exception, or it returns a result that is [good]
    in a store extending [h0]. *)
Definition agrees (h0 : heap) (m : M ValidationResult) (pm : outcome Pure.res) (h : heap)
  : Prop :=
  match pm with
  | Raise e => m h = Raise e
  | Ok p => exists r h', m h = Ok (r, h') /\ extends h0 h' /\ good h0 h' p r
  end.

(** A [validate] method refines a pure one. *)
Definition refines (f : validate_fn) (pf : Pure.validate_fn) : Prop :=
  forall x h, agrees h (f x) (pf x) h.

(** ** Notions used in the statements *)

(** An object that was never assigned to, or only assigned the attributes it
    already had. *)
Definition unchanged (c : cell) : Prop := Forall (fun e => e = now c) (was c).

(** [3.0] as an IEEE double. *)
Definition float_3 : spec_float := S754_finite false 6755399441055744 (-51).

Definition any_string : StringConfig :=
  {| str_min_length := 0; str_max_length := None;
     str_pattern := None; str_allowed_values := None |}.

(** [NumberValidator(min_value=0, max_value=120, integer_only=True)] *)
Definition age_number : NumberConfig :=
  {| num_min_value := Some (NInt 0); num_max_value := Some (NInt 120);
     num_integer_only := true; num_allow_negative := true; num_allow_zero := true |}.

Definition is_str (x : value) : bool :=
  match x with VStr _ => true | _ => false end.

(** The primitive validators. *)
Definition primitive (v : validator) : bool :=
  match v with
  | StringValidator _ | NumberValidator _ | BooleanValidator | DateValidator _ => true
  | _ => false
  end.

(** The [isinstance] check of a primitive validator: whether the runtime type
    of the value is the one the validator expects. *)
Definition expected_type (v : validator) (x : value) : bool :=
  match v with
  | StringValidator _ => is_str x
  | NumberValidator c =>
      if num_integer_only c then is_int x
      else match as_num x with Some _ => true | None => false end
  | BooleanValidator => match x with VBool _ => true | _ => false end
  | DateValidator _ => match x with VDate _ => true | _ => false end
  | _ => true
  end.

Definition expected_name (v : validator) : string :=
  match v with
  | StringValidator _ => "string"
  | NumberValidator c => if num_integer_only c then "integer" else "number"
  | BooleanValidator => "boolean"
  | DateValidator _ => "date"
  | _ => ""
  end.

(** The type-mismatch error of a primitive validator. *)
Definition type_mismatch (v : validator) (x : value) : ValidationError :=
  error_of ("Expected " +:+ expected_name v +:+ " but got " +:+ type_name x).

(** [DateValidator(format_str="%Y-%m-%d")] *)
Definition iso_date : DateConfig :=
  {| date_min_date := None; date_max_date := None; date_format_str := Some "%Y-%m-%d" |}.

(** The schema of the path example: a dictionary whose field "a" is a list of
    dictionaries that require a string "b". *)
Definition nested_schema : validator :=
  DictValidator
    [("a", ListValidator
             (Some (DictValidator [("b", StringValidator any_string)] ["b"] false))
             0 None false)]
    [] false.

(** [{"a": [{"b": 1}]}] *)
Definition nested_input : value :=
  VDict [(VStr "a", VList [VDict [(VStr "b", VInt 1)]])].

(** The keys ["type"] and ["properties"] of a schema. *)
Definition js_type (schema : jschema) : option string :=
  match schema with JSchema type _ _ _ _ _ _ _ _ _ _ _ _ _ => type end.

Definition js_properties (schema : jschema) : list (string * jschema) :=
  match schema with JSchema _ properties _ _ _ _ _ _ _ _ _ _ _ _ => properties end.

(** The type tags the schema compiler has a branch for. *)
Definition supported_type (type : option string) : bool :=
  is_type "string" type || is_type "number" type || is_type "integer" type ||
  is_type "boolean" type || is_type "array" type || is_type "object" type.

(** [{"type": type}] *)
Definition schema_of_type (type : option string) : jschema :=
  JSchema type [] [] None None None None None None None None None None None.

(** [{"properties": {"x": {"type": "null"}}}] *)
Definition null_property_schema : jschema :=
  JSchema None [("x", schema_of_type (Some "null"))] [] None
    None None None None None None None None None None.

(** ** Notions used in the further properties *)

(** The values that compare equal to 0. *)
Definition zero_like (x : value) : Prop :=
  x = VInt 0 \/ x = VBool false \/ exists negative, x = VFloat (S754_zero negative).

(** How many of the conditions fail. *)
Definition violations (conditions : list bool) : nat :=
  List.length (List.filter negb conditions).

(** The four constraints of a [StringValidator] on a string, in the order in
    which they are checked. *)
Definition string_constraints (c : StringConfig) (s : string) : list bool :=
  let len := Z.of_nat (String.length s) in
  [ str_min_length c <=? len;
    match str_max_length c with Some mx => len <=? mx | None => true end;
    match str_pattern c with Some p => pattern_match p s | None => true end;
    match str_allowed_values c with
    | Some (a :: allowed) => existsb (String.eqb s) (a :: allowed)
    | _ => true
    end ].



(** The key ["items"] of a schema. *)
Definition js_items (schema : jschema) : option jschema :=
  match schema with JSchema _ _ _ _ _ _ _ _ _ _ items _ _ _ => items end.

(** A schema from which a validator can be built: every type tag met on the
    way is a supported one, every pattern compiles, and every array says what
    its items are. *)
Fixpoint buildable (lib : Lib) (schema : jschema) : bool :=
  match schema with
  | JSchema type properties _ _ _ _ pattern _ _ _ items _ _ _ =>
      if is_type "string" type then
        match pattern with
        | Some src => match re_compile lib src with Some _ => true | None => false end
        | None => true
        end
      else if is_type "number" type || is_type "integer" type then true
      else if is_type "boolean" type then true
      else if is_type "array" type then
        match items with
        | Some items_schema => buildable lib items_schema
        | None => false
        end
      else if is_type "object" type then
        forallb (fun property => buildable lib property.2) properties
      else false
  end.

(** The schema with another list under the key ["required"]. *)
Definition with_required (required : list string) (schema : jschema) : jschema :=
  match schema with
  | JSchema type properties _ additionalProperties minLength maxLength pattern enum
      minimum maximum items minItems maxItems uniqueItems =>
      JSchema type properties required additionalProperties minLength maxLength pattern enum
        minimum maximum items minItems maxItems uniqueItems
  end.

Definition js_required (schema : jschema) : list string :=
  match schema with JSchema _ _ required _ _ _ _ _ _ _ _ _ _ _ => required end.

Definition js_additionalProperties (schema : jschema) : option bool :=
  match schema with JSchema _ _ _ additionalProperties _ _ _ _ _ _ _ _ _ _ =>
    additionalProperties end.

(** The computation returns, rather than raises. *)
Definition succeeds {A} (o : outcome A) : Prop := exists a, o = Ok a.

(** What a caller observes of a computation started in a fresh store. *)
Definition observe (m : M ValidationResult) : outcome (bool * list ValidationError) :=
  match m [] with
  | Ok (result, h) => Ok (is_valid result, view h result)
  | Raise e => Raise e
  end.

(** The five requirements of a [PasswordValidator] on a string, in the order
    in which they are checked. *)
Definition password_requirements (chars : Chars) (c : PasswordConfig) (s : string)
  : list bool :=
  [ pw_min_length c <=? Z.of_nat (String.length s);
    implb (pw_require_uppercase c) (any_char (isupper chars) s);
    implb (pw_require_lowercase c) (any_char (islower chars) s);
    implb (pw_require_digit c) (any_char (isdigit chars) s);
    implb (pw_require_special c) (any_char (fun ch => negb (isalnum chars ch)) s) ].

(** ** [ValidatedModel] *)

(** A model class: its name, those of its class attributes that are
    validators, by attribute name, and its constructor, which gives the
    attributes of the new instance in the order in which it sets them. *)
Record ModelClass : Type := {
  class_name : string;
  class_validators : list (string * validator);
  class_init : list (string * value) -> outcome (list (string * value))
}.

(** [f"_{field_name}_validator"] *)
Definition validator_attribute (field_name : string) : string :=
  "_" +:+ field_name +:+ "_validator".

(** [getattr(self.__class__, name, None)], when it is a [Validator]. *)
Fixpoint class_attribute (attributes : list (string * validator)) (name : string)
  : option validator :=
  match attributes with
  | [] => None
  | (attribute, validator) :: rest =>
      if String.eqb attribute name then Some validator else class_attribute rest name
  end.

(** The loop of [ValidatedModel.validate] over the attributes of the
    instance. *)
Fixpoint model_fields (lib : Lib) (attributes : list (string * validator))
  (fields : list (string * value)) (result : ValidationResult) : M ValidationResult :=
  match fields with
  | [] => ret result
  | (field_name, field_value) :: rest =>
      let* result :=
        match class_attribute attributes (validator_attribute field_name) with
        | Some validator =>
            let* field_result := validate lib validator field_value in
            absorb field_name field_result result
        | None => ret result
        end in
      model_fields lib attributes rest result
  end.

(** [ValidatedModel.validate] *)
Definition model_validate (lib : Lib) (attributes : list (string * validator))
  (fields : list (string * value)) : M ValidationResult :=
  model_fields lib attributes fields (new_result true).

(** The same loop without a store. *)
Fixpoint pure_model_fields (lib : Lib) (attributes : list (string * validator))
  (fields : list (string * value)) (result : Pure.res) : outcome Pure.res :=
  match fields with
  | [] => Ok result
  | (field_name, field_value) :: rest =>
      match class_attribute attributes (validator_attribute field_name) with
      | Some validator =>
          match Pure.validate lib validator field_value with
          | Ok field_result =>
              pure_model_fields lib attributes rest
                (Pure.absorb field_name field_result result)
          | Raise e => Raise e
          end
      | None => pure_model_fields lib attributes rest result
      end
  end.

(** How [ValidatedModel.from_dict] ends: with the instance, with the
    [ValidationError] it raises, or with an exception of the constructor or
    of a validator. *)
Inductive constructed : Type :=
| Instance (fields : list (string * value))
| Rejected (error : ValidationError)
| Failed (e : exn).

(** [ValidatedModel.from_dict] *)
Definition from_dict (lib : Lib) (cls : ModelClass) (data : list (string * value))
  (h : heap) : constructed :=
  match class_init cls data with
  | Ok fields =>
      match model_validate lib (class_validators cls) fields h with
      | Ok (result, h') =>
          if is_valid result then Instance fields
          else Rejected
                 {| message := "Invalid " +:+ class_name cls;
                    field := None;
                    details :=
                      [("errors", VList (map VStr (map message (view h' result))))] |}
      | Raise e => Failed e
      end
  | Raise e => Failed e
  end.

(** ** [validate_arguments] *)

(** [for error in result.errors: error.field = ...;
    validation_errors.append(error)] *)
Fixpoint collect (prefix : string) (errs : list nat) (validation_errors : list nat)
  : M (list nat) :=
  match errs with
  | [] => ret validation_errors
  | a :: rest =>
      let* _ := set_field_prefixed prefix a in
      collect prefix rest (validation_errors ++ [a])
  end.

(** [bound_args.arguments[param_name]], when
    [param_name in bound_args.arguments]. *)
Fixpoint argument (arguments : list (string * value)) (param_name : string)
  : option value :=
  match arguments with
  | [] => None
  | (name, x) :: rest =>
      if String.eqb name param_name then Some x else argument rest param_name
  end.

(** The loop of [wrapper] over the validators given to
    [validate_arguments]. *)
Fixpoint check_arguments (lib : Lib) (validators : list (string * validator))
  (arguments : list (string * value)) (validation_errors : list nat) : M (list nat) :=
  match validators with
  | [] => ret validation_errors
  | (param_name, validator) :: rest =>
      let* validation_errors :=
        match argument arguments param_name with
        | Some x =>
            let* result := validate lib validator x in
            if is_valid result then ret validation_errors
            else collect param_name (errors result) validation_errors
        | None => ret validation_errors
        end in
      check_arguments lib rest arguments validation_errors
  end.

(** How a call of the wrapped function ends: with what the function returns,
    with the [ValidationError] that [wrapper] raises, or with another
    exception. *)
Inductive wrapped_call (A : Type) : Type :=
| Called (result : A)
| Refused (error : ValidationError)
| Crashed (e : exn).
Arguments Called {A} result.
Arguments Refused {A} error.
Arguments Crashed {A} e.

(** [wrapper], for the function [func] of name [func_name] decorated with
    [validate_arguments].  [bound] is what [sig.bind] and [apply_defaults]
    give for the arguments of the call, the parameters with their arguments
    or the exception of a call that does not fit the signature, and [call] is
    what [func] does on these arguments. *)
Definition wrapper {A} (lib : Lib) (validators : list (string * validator))
  (func_name : string) (call : outcome A) (bound : outcome (list (string * value)))
  (h : heap) : wrapped_call A :=
  match bound with
  | Ok arguments =>
      match check_arguments lib validators arguments [] h with
      | Ok (validation_errors, h') =>
          match validation_errors with
          | _ :: _ =>
              Refused
                {| message := "Invalid arguments for " +:+ func_name;
                   field := None;
                   details :=
                     [("errors",
                       VList (map VStr (map (fun a => message (deref h' a))
                                          validation_errors)))] |}
          | [] =>
              match call with
              | Ok result => Called result
              | Raise e => Crashed e
              end
          end
      | Raise e => Crashed e
      end
  | Raise e => Crashed e
  end.

(** ** [validate_registration_form] *)

(** The [schema] of the function.  The key ["format"] of the property
    ["email"] is not one the constructor of [JSONSchemaValidator] reads. *)
Definition registration_schema : jschema :=
  JSchema None
    [("username",
      JSchema (Some "string") [] [] None (Some 3) (Some 50) (Some "^[a-zA-Z0-9_-]+$")
        None None None None None None None);
     ("email", schema_of_type (Some "string"));
     ("password",
      JSchema (Some "string") [] [] None (Some 8) None None
        None None None None None None None);
     ("confirm_password", schema_of_type (Some "string"));
     ("age",
      JSchema (Some "integer") [] [] None None None None
        None (Some (NInt 13)) None None None None None);
     ("terms_accepted", schema_of_type (Some "boolean"));
     ("profile",
      JSchema (Some "object")
        [("first_name", schema_of_type (Some "string"));
         ("last_name", schema_of_type (Some "string"));
         ("bio",
          JSchema (Some "string") [] [] None None (Some 500) None
            None None None None None None None)]
        [] None None None None None None None None None None None)]
    ["username"; "email"; "password"; "confirm_password"; "terms_accepted"]
    None None None None None None None None None None None.

(** [PasswordValidator()] *)
Definition default_password : PasswordConfig :=
  {| pw_min_length := 8;
     pw_require_uppercase := true;
     pw_require_lowercase := true;
     pw_require_digit := true;
     pw_require_special := true |}.

(** [form_data.get(key, otherwise)] *)
Definition dict_get_or (entries : list (value * value)) (key : string) (otherwise : value)
  : value :=
  match dict_get entries key with
  | Some x => x
  | None => otherwise
  end.

(** The effect of [error.field = name] on the object. *)
Definition assign (name : string) (c : cell) : cell :=
  {| now := {| message := message (now c); field := Some name; details := details (now c) |};
     was := now c :: was c |}.

Definition set_field (name : string) (a : nat) : M unit :=
  fun h => Ok (tt, alter (assign name) a h).

(** [for error in errs: error.field = name; result.add_error(error)] *)
Fixpoint relabel (name : string) (errs : list nat) (result : ValidationResult)
  : M ValidationResult :=
  match errs with
  | [] => ret result
  | a :: rest =>
      let* _ := set_field name a in
      relabel name rest (add_error result a)
  end.

(** [result.add_error(ValidationError(msg, field=name))] *)
Definition fail_at (result : ValidationResult) (msg name : string) : M ValidationResult :=
  let* a := new_error {| message := msg; field := Some name; details := [] |} in
  ret (add_error result a).

(** [validate_registration_form].  The additional rules run on a valid
    result, and the result of the schema validator is valid for a dictionary
    only (on any other value [form_data.get] would fail). *)
Definition validate_registration_form (lib : Lib) (form_data : value) : M ValidationResult :=
  match new_JSONSchemaValidator lib registration_schema with
  | Ok validator =>
      let* result := validate lib validator form_data in
      if is_valid result then
        match form_data with
        | VDict entries =>
            let* result :=
              if negb (py_eq lib (dict_get_or entries "password" VNone)
                         (dict_get_or entries "confirm_password" VNone))
              then fail_at result "Passwords do not match" "confirm_password"
              else ret result in
            let password := dict_get_or entries "password" (VStr "") in
            let* password_result :=
              validate lib (PasswordValidator default_password) password in
            let* result :=
              if negb (is_valid password_result)
              then relabel "password" (errors password_result) result
              else ret result in
            let* result :=
              if negb (truthy (dict_get_or entries "terms_accepted" (VBool false)))
              then fail_at result "You must accept the terms and conditions" "terms_accepted"
              else ret result in
            ret result
        | _ => raise AttributeError
        end
      else ret result
  | Raise e => raise e
  end.

(** ** Notions used in the statements on the store and on exceptions *)

(** The operations of the framework that handle [ValidationError] objects:
    [validate] on a validator of any class, [ValidatedModel.validate] (which
    is all that [ValidatedModel.from_dict] does to the store), the argument
    check of [validate_arguments], and [validate_registration_form]. *)
Inductive operation : Type :=
| Validate (v : validator) (x : value)
| ModelValidate (attributes : list (string * validator)) (fields : list (string * value))
| CheckArguments (validators : list (string * validator)) (arguments : list (string * value))
| ValidateRegistrationForm (form_data : value).

(** The store that an operation leaves when it returns. *)
Definition store_of {A} (o : outcome (A * heap)) : option heap :=
  match o with
  | Ok (_, h') => Some h'
  | Raise _ => None
  end.

Definition store_after (lib : Lib) (op : operation) (h : heap) : option heap :=
  match op with
  | Validate v x => store_of (validate lib v x h)
  | ModelValidate attributes fields => store_of (model_validate lib attributes fields h)
  | CheckArguments validators arguments =>
      store_of (check_arguments lib validators arguments [] h)
  | ValidateRegistrationForm form_data => store_of (validate_registration_form lib form_data h)
  end.

(** The object has the message and the details it had after each of the
    assignments made to it, and when it was constructed. *)
Definition kept (c : cell) : Prop :=
  Forall (fun e => message e = message (now c) /\ details e = details (now c)) (was c).

(** [h'] is [h] with new objects after it, each of which kept its message
    and its details; the objects of [h] are untouched. *)
Definition grows (h h' : heap) : Prop :=
  exists news, h' = h ++ news /\ Forall kept news.

(** The operations that assign to [error.field] nothing but the old path with
    a segment prepended; [validate_registration_form] also sets the field of
    the password errors to ["password"]. *)
Definition prefixing (op : operation) : bool :=
  match op with
  | ValidateRegistrationForm _ => false
  | _ => true
  end.

(** An object that was assigned to before the call: the error of a string
    validator, aggregated once by a list validator. *)
Definition earlier_error : cell :=
  {| now := {| message := "Expected string but got int"; field := Some "[0]"; details := [] |};
     was := [error_of "Expected string but got int"] |}.

(** [UnionValidator([PhoneNumberValidator(),
    CustomValidator(lambda value: False)])] *)
Definition phone_or_custom : validator :=
  UnionValidator
    [PhoneNumberValidator {| phone_allow_international := true; phone_country_code := None |};
     CustomValidator (fun _ => Ok (VBool false)) "Validation failed"].

(** A bound that is a plain [datetime.date]. *)
Definition is_plain (bound : option dateval) : bool :=
  match bound with
  | Some (PlainDate _) => true
  | _ => false
  end.

(** Two calls in which [validate] has an error to report and fails while it
    builds or decides it: a [DictValidator] that rejects unknown fields, on a
    dictionary with a key that is not a string, and a [DateValidator] with a
    plain date as a bound, on a [datetime]. *)
Definition breaks (v : validator) (x : value) : bool :=
  match v, x with
  | DictValidator _ _ false, VDict entries =>
      existsb (fun key => negb (is_str key)) (map fst entries)
  | DateValidator c, VDate (DateTime _ _) =>
      is_plain (date_min_date c) || is_plain (date_max_date c)
  | _, _ => false
  end.

(** A function that keeps state between its calls: from the state it is in
    and the value, what it returns or raises, and the state it is in
    afterwards. *)
Definition stateful (S : Type) : Type := S -> value -> outcome value * S.

(** [CustomValidator.validate] over such a function: the computation, and the
    state the function is left in. *)
Definition stateful_custom_validate {S : Type} (validation_func : stateful S)
  (error_message : string) (value : value) (s : S) : M ValidationResult * S :=
  let (answer, s') := validation_func s value in
  (match answer with
   | Ok validation_result => custom_conclude error_message validation_result
   | Raise e => raise e
   end, s').

(** A function that accepts on its first call only:
    [lambda value: not calls and not calls.append(value)], for a list
    [calls] that starts empty. *)
Definition first_call_only : stateful bool :=
  fun called _ => (Ok (VBool (negb called)), true).

(** * Proofs *)

(** ** Induction over validators *)

Section ValidatorInduction.

Variable P : validator -> Prop.

Hypothesis P_string : forall c, P (StringValidator c).
Hypothesis P_number : forall c, P (NumberValidator c).
Hypothesis P_boolean : P BooleanValidator.
Hypothesis P_date : forall c, P (DateValidator c).
Hypothesis P_list : forall iv mn mx u,
  match iv with Some v => P v | None => True end -> P (ListValidator iv mn mx u).
Hypothesis P_dict : forall schema req au,
  Forall (fun fv => P fv.2) schema -> P (DictValidator schema req au).
Hypothesis P_union : forall vs, Forall P vs -> P (UnionValidator vs).
Hypothesis P_optional : forall v, P v -> P (OptionalValidator v).
Hypothesis P_email : forall allow_empty, P (EmailValidator allow_empty).
Hypothesis P_password : forall c, P (PasswordValidator c).
Hypothesis P_phone : forall c, P (PhoneNumberValidator c).
Hypothesis P_url : forall c, P (URLValidator c).
Hypothesis P_custom : forall f msg, P (CustomValidator f msg).
Hypothesis P_json : forall v, P v -> P (JSONSchemaValidator v).

Fixpoint validator_induction (v : validator) : P v :=
  match v with
  | StringValidator c => P_string c
  | NumberValidator c => P_number c
  | BooleanValidator => P_boolean
  | DateValidator c => P_date c
  | ListValidator iv mn mx u =>
      P_list iv mn mx u
        match iv return match iv with Some v => P v | None => True end with
        | Some w => validator_induction w
        | None => I
        end
  | DictValidator schema req au =>
      P_dict schema req au
        ((fix go (l : list (string * validator)) : Forall (fun fv => P fv.2) l :=
            match l with
            | [] => List.Forall_nil _
            | fv :: l' => @List.Forall_cons _ (fun fv => P fv.2) fv l' (validator_induction fv.2) (go l')
            end) schema)
  | UnionValidator vs =>
      P_union vs
        ((fix go (l : list validator) : Forall P l :=
            match l with
            | [] => List.Forall_nil _
            | w :: l' => @List.Forall_cons _ P w l' (validator_induction w) (go l')
            end) vs)
  | OptionalValidator w => P_optional w (validator_induction w)
  | EmailValidator allow_empty => P_email allow_empty
  | PasswordValidator c => P_password c
  | PhoneNumberValidator c => P_phone c
  | URLValidator c => P_url c
  | CustomValidator f msg => P_custom f msg
  | JSONSchemaValidator w => P_json w (validator_induction w)
  end.

End ValidatorInduction.

(** ** The store: allocation and reassignment *)

Lemma extends_refl h : extends h h.
Proof. exists []. split; [by rewrite app_nil_r | constructor]. Qed.

Lemma extends_trans h1 h2 h3 : extends h1 h2 -> extends h2 h3 -> extends h1 h3.
Proof.
  intros (n1 & -> & H1) (n2 & -> & H2). exists (n1 ++ n2).
  split; [by rewrite app_assoc | by apply Forall_app].
Qed.

Lemma extends_length h h' : extends h h' -> (List.length h <= List.length h')%nat.
Proof. intros (n & -> & _). rewrite length_app. lia. Qed.

Lemma deref_app_l h news a : (a < List.length h)%nat -> deref (h ++ news) a = deref h a.
Proof. intros Ha. unfold deref. by rewrite lookup_app_l. Qed.

Lemma extends_deref h h' a : extends h h' -> (a < List.length h)%nat -> deref h' a = deref h a.
Proof. intros (n & -> & _). apply deref_app_l. Qed.

Lemma deref_alloc h e : deref (h ++ [{| now := e; was := [] |}]) (List.length h) = e.
Proof. unfold deref. by rewrite list_lookup_middle. Qed.

Lemma extends_alloc h0 h e :
  extends h0 h -> extends h0 (h ++ [{| now := e; was := [] |}]).
Proof.
  intros H. eapply extends_trans; [exact H |].
  eexists. split; [reflexivity |]. repeat constructor.
Qed.

Lemma view_stable h h' r :
  extends h h' -> Forall (fun a => (a < List.length h)%nat) (errors r) -> view h' r = view h r.
Proof.
  intros He Hb. unfold view. apply map_ext_in. intros a Ha.
  apply (extends_deref _ _ _ He). rewrite List.Forall_forall in Hb. by apply Hb.
Qed.

Lemma good_new h0 h : good h0 h (Pure.new_result true) (new_result true).
Proof. repeat split; simpl; try constructor; done. Qed.

Lemma good_weaken h0 h1 h p r :
  (List.length h0 <= List.length h1)%nat -> good h1 h p r -> good h0 h p r.
Proof.
  intros Hl (Hv & Hw & Hb & Hn & Hi). repeat split; try done; try apply Hi.
  eapply Forall_impl; [exact Hb |]. simpl. lia.
Qed.

Lemma good_stable h0 h h' p r : extends h h' -> good h0 h p r -> good h0 h' p r.
Proof.
  intros He (Hv & Hw & Hb & Hn & Hi). repeat split; try done; try apply Hi.
  - rewrite <- Hw. apply view_stable; [done |].
    eapply Forall_impl; [exact Hb |]. simpl. lia.
  - eapply Forall_impl; [exact Hb |]. simpl. intros a Ha.
    pose proof (extends_length _ _ He). lia.
Qed.

Lemma good_add_error h0 h p r e :
  (List.length h0 <= List.length h)%nat -> good h0 h p r ->
  good h0 (h ++ [{| now := e; was := [] |}]) (Pure.add_error p e) (add_error r (List.length h)).
Proof.
  intros Hl (Hv & Hw & Hb & Hn & Hi). unfold good, view, Pure.add_error, add_error. simpl.
  split; [done |]. split; [| split; [| split]].
  - rewrite map_app. simpl. rewrite deref_alloc. f_equal. rewrite <- Hw.
    apply map_ext_in. intros a Ha. apply deref_app_l.
    rewrite List.Forall_forall in Hb. apply Hb in Ha. lia.
  - apply Forall_app. split.
    + eapply Forall_impl; [exact Hb |]. simpl. intros a Ha. rewrite length_app. simpl. lia.
    + constructor; [| constructor]. rewrite length_app. simpl. lia.
  - apply NoDup_app. split; [done |]. split; [| apply NoDup_singleton].
    intros a Ha Ha'. apply list_elem_of_singleton in Ha'. subst a.
    rewrite Forall_forall in Hb. apply Hb in Ha. lia.
  - split; [done |]. intros E. by apply app_eq_nil in E as [_ ?].
Qed.

(** *** Rules for [agrees] *)

Lemma agrees_ret h0 h p r : extends h0 h -> good h0 h p r -> agrees h0 (ret r) (Ok p) h.
Proof. intros He Hg. exists r, h. done. Qed.

Lemma agrees_fail h0 h p r msg :
  extends h0 h -> good h0 h p r ->
  agrees h0 (fail_with r msg) (Ok (Pure.fail_with p msg)) h.
Proof.
  intros He Hg. eexists _, _. split; [reflexivity |]. split.
  - by apply extends_alloc.
  - apply good_add_error; [by apply extends_length | done].
Qed.

Lemma agrees_fail_bind h0 h p r msg k pm :
  extends h0 h -> good h0 h p r ->
  (forall h' r', extends h0 h' -> good h0 h' (Pure.fail_with p msg) r' ->
                 agrees h0 (k r') pm h') ->
  agrees h0 (bind (fail_with r msg) k) pm h.
Proof.
  intros He Hg Hk.
  destruct (agrees_fail h0 h p r msg He Hg) as (r' & h' & E & He' & Hg').
  specialize (Hk h' r' He' Hg').
  unfold agrees, bind in *. rewrite E. exact Hk.
Qed.

Lemma agrees_ret_bind {A} h0 h (a : A) (k : A -> M ValidationResult) pm :
  agrees h0 (k a) pm h -> agrees h0 (bind (ret a) k) pm h.
Proof. done. Qed.

Lemma agrees_raise h0 h e : agrees h0 (raise e) (Raise e) h.
Proof. done. Qed.

(** ** The primitive validators refine their pure counterparts *)

Ltac agree_step :=
  lazymatch goal with
  | |- agrees _ (bind (fail_with _ _) _) _ _ =>
      eapply agrees_fail_bind; [eassumption | eassumption | intros ? ? ? ?]
  | |- agrees _ (bind (ret _) _) _ _ => apply agrees_ret_bind
  | |- agrees _ (ret _) (Ok _) _ => apply agrees_ret; assumption
  | |- agrees _ (fail_with _ _) (Ok _) _ => apply agrees_fail; assumption
  | |- agrees _ (raise _) (Raise _) _ => apply agrees_raise
  | |- agrees _ (bind (raise _) _) (Raise _) _ => reflexivity
  | |- agrees _ (bind (if ?c then _ else _) _) _ _ => destruct c; cbv beta iota
  | |- agrees _ (bind (match ?c with _ => _ end) _) _ _ => destruct c; cbv beta iota
  | |- agrees _ (if ?c then _ else _) _ _ => destruct c; cbv beta iota
  | |- agrees _ (match ?c with _ => _ end) _ _ => destruct c; cbv beta iota
  end.

Ltac agree_start h :=
  pose proof (extends_refl h); pose proof (good_new h h).

Section Primitives.

Context (lib : Lib).

Lemma string_refines c : refines (string_validate c) (Pure.string_validate c).
Proof.
  intros x h. agree_start h. unfold string_validate, Pure.string_validate.
  destruct x; cbv zeta; repeat agree_step.
Qed.

Lemma number_refines c : refines (number_validate lib c) (Pure.number_validate lib c).
Proof.
  intros x h. agree_start h. unfold number_validate, Pure.number_validate.
  cbv zeta. repeat agree_step.
Qed.

Lemma boolean_refines : refines boolean_validate Pure.boolean_validate.
Proof.
  intros x h. agree_start h. unfold boolean_validate, Pure.boolean_validate.
  destruct x; cbv zeta; repeat agree_step.
Qed.

Lemma date_range_agrees c d h0 h p r :
  extends h0 h -> good h0 h p r ->
  agrees h0 (date_range lib c d r) (Pure.date_range lib c d p) h.
Proof.
  intros He Hg. unfold date_range, Pure.date_range.
  repeat agree_step.
Qed.

Lemma date_refines c : refines (date_validate lib c) (Pure.date_validate lib c).
Proof.
  intros x h. agree_start h. unfold date_validate, Pure.date_validate. cbv zeta.
  destruct (date_parse_format c x) as [[s fmt]|].
  - destruct (strptime_date lib s fmt).
    + by apply date_range_agrees.
    + by apply agrees_fail.
  - destruct x; try (by apply agrees_fail). by apply date_range_agrees.
Qed.

End Primitives.

(** ** The common patterns and the custom validator refine theirs *)

Lemma agrees_bind h0 h m pm k (pk : Pure.res -> outcome Pure.res) :
  agrees h0 m pm h ->
  (forall p r h', extends h0 h' -> good h0 h' p r -> agrees h0 (k r) (pk p) h') ->
  agrees h0 (bind m k) (match pm with Ok p => pk p | Raise e => Raise e end) h.
Proof.
  unfold agrees at 1. intros Hm Hk. destruct pm as [p|e].
  - destruct Hm as (r & h' & E & He & Hg). specialize (Hk p r h' He Hg).
    unfold agrees, bind in *. by rewrite E.
  - unfold agrees, bind. by rewrite Hm.
Qed.

Lemma email_agrees allow_empty x h :
  agrees h (email_validate allow_empty x) (Pure.email_validate allow_empty x) h.
Proof.
  unfold email_validate, Pure.email_validate.
  apply (agrees_bind h h _ _ _
           (fun result : Pure.res =>
              if result.1 then
                match x with
                | VStr s =>
                    if negb (String.eqb s "") then
                      let result :=
                        if str_contains ".." s
                        then Pure.fail_with result "Email cannot contain consecutive dots"
                        else result in
                      let parts := split_char "@" s in
                      let result :=
                        if Nat.eqb (List.length parts) 2 &&
                           negb (str_contains "." (nth 1 parts ""))
                        then Pure.fail_with result
                               "Email domain must contain at least one dot"
                        else result in
                      Ok result
                    else Ok result
                | _ => Raise TypeError
                end
              else Ok result)).
  - apply string_refines.
  - intros p r h' He Hg. pose proof Hg as (Hv & _). rewrite Hv.
    destruct p.1; [| by apply agrees_ret].
    destruct x; try apply agrees_raise.
    destruct (negb (String.eqb s "")); [| by apply agrees_ret].
    cbv zeta. repeat agree_step.
Qed.

Lemma password_agrees chars c x h :
  agrees h (password_validate chars c x) (Pure.password_validate chars c x) h.
Proof.
  unfold password_validate, Pure.password_validate.
  apply (agrees_bind h h _ _ _
           (fun result : Pure.res =>
              match x with
              | VStr s =>
                  let result :=
                    if pw_require_uppercase c && negb (any_char (isupper chars) s)
                    then Pure.fail_with result
                           "Password must contain at least one uppercase letter"
                    else result in
                  let result :=
                    if pw_require_lowercase c && negb (any_char (islower chars) s)
                    then Pure.fail_with result
                           "Password must contain at least one lowercase letter"
                    else result in
                  let result :=
                    if pw_require_digit c && negb (any_char (isdigit chars) s)
                    then Pure.fail_with result "Password must contain at least one digit"
                    else result in
                  let result :=
                    if pw_require_special c &&
                       negb (any_char (fun ch => negb (isalnum chars ch)) s)
                    then Pure.fail_with result
                           "Password must contain at least one special character"
                    else result in
                  Ok result
              | _ => Ok result
              end)).
  - apply string_refines.
  - intros p r h' He Hg. destruct x; try (by apply agrees_ret).
    cbv zeta. repeat agree_step.
Qed.

Section Patterns.

Context (lib : Lib).

Lemma phone_refines c : refines (phone_validate lib c) (Pure.phone_validate lib c).
Proof.
  intros x h. agree_start h. unfold phone_validate, Pure.phone_validate.
  destruct x; cbv zeta; repeat agree_step.
Qed.

Lemma url_refines c : refines (url_validate c) (Pure.url_validate c).
Proof.
  intros x h. unfold url_validate, Pure.url_validate.
  apply (agrees_bind h h _ _ _
           (fun result : Pure.res =>
              match x with
              | VStr s => if negb result.1 then Ok result else Pure.url_checks c s result
              | _ => Ok result
              end)).
  - apply string_refines.
  - intros p r h' He Hg. destruct x; try (by apply agrees_ret).
    pose proof Hg as (Hv & _). rewrite Hv.
    destruct (negb p.1); [by apply agrees_ret |].
    unfold Pure.url_checks. cbv zeta. repeat agree_step.
Qed.

Lemma custom_refines f msg : refines (custom_validate f msg) (Pure.custom_validate f msg).
Proof.
  intros x h. unfold custom_validate, Pure.custom_validate.
  destruct (f x) as [answer|e]; [| apply agrees_raise].
  agree_start h. unfold custom_conclude, Pure.custom_conclude.
  destruct answer; cbv zeta; repeat agree_step.
Qed.

End Patterns.

(** ** Aggregating the errors of a child *)

Lemma aggregate_eq prefix errs r h :
  aggregate prefix errs r h = Ok (fold_left add_error errs r, reassign_all prefix errs h).
Proof.
  revert r h. induction errs as [|a errs IH]; intros r h; [done |].
  simpl. unfold bind, set_field_prefixed. apply IH.
Qed.

Lemma fold_add_error errs r :
  fold_left add_error errs r =
  {| is_valid := match errs with [] => is_valid r | _ => false end;
     errors := errors r ++ errs |}.
Proof.
  revert r. induction errs as [|a errs IH]; intros r; simpl.
  - rewrite app_nil_r. by destruct r.
  - rewrite IH. simpl. rewrite <- app_assoc. by destruct errs.
Qed.

Lemma pure_aggregate_eq prefix es p :
  Pure.aggregate prefix es p =
  (match es with [] => p.1 | _ => false end, p.2 ++ map (prefixed prefix) es).
Proof.
  unfold Pure.aggregate. revert p. induction es as [|e es IH]; intros p; simpl.
  - rewrite app_nil_r. by destruct p.
  - rewrite IH. simpl. rewrite <- app_assoc. by destruct es.
Qed.

Lemma reassign_all_length prefix errs h :
  List.length (reassign_all prefix errs h) = List.length h.
Proof.
  revert h. induction errs as [|a errs IH]; intros h; [done |].
  simpl. rewrite IH. apply length_alter.
Qed.

Lemma reassign_all_notin prefix errs h a :
  a ∉ errs -> reassign_all prefix errs h !! a = h !! a.
Proof.
  revert h. induction errs as [|b errs IH]; intros h Ha; [done |].
  apply not_elem_of_cons in Ha as [Hne Ha]. simpl. rewrite IH by done.
  by apply list_lookup_alter_ne.
Qed.

Lemma reassign_all_in prefix errs h a :
  NoDup errs -> a ∈ errs -> reassign_all prefix errs h !! a = reassign prefix <$> h !! a.
Proof.
  revert h. induction errs as [|b errs IH]; intros h Hn Ha; [by apply elem_of_nil in Ha |].
  apply NoDup_cons in Hn as [Hb Hn]. simpl.
  apply elem_of_cons in Ha as [-> | Ha].
  - rewrite reassign_all_notin by done. apply list_lookup_alter_eq.
  - rewrite IH by done. rewrite list_lookup_alter_ne; [done |].
    intros ->. done.
Qed.

Lemma reassign_ok prefix c : cell_ok c -> cell_ok (reassign prefix c).
Proof. intros H. unfold cell_ok, reassign. simpl. by constructor. Qed.

Lemma reassign_all_app prefix errs h news :
  Forall (fun a => (List.length h <= a)%nat) errs ->
  Forall cell_ok news ->
  exists news', reassign_all prefix errs (h ++ news) = h ++ news' /\ Forall cell_ok news'.
Proof.
  revert news. induction errs as [|a errs IH]; intros news Hb Hok.
  - by exists news.
  - apply Forall_cons in Hb as [Ha Hb]. simpl.
    rewrite alter_app_r_alt by done. apply IH; [done |].
    apply Forall_alter; [done |]. intros c _ Hc. by apply reassign_ok.
Qed.

Lemma deref_reassigned prefix errs h a :
  NoDup errs -> a ∈ errs -> (a < List.length h)%nat ->
  deref (reassign_all prefix errs h) a = prefixed prefix (deref h a).
Proof.
  intros Hn Ha Hl. unfold deref. rewrite reassign_all_in by done.
  destruct (lookup_lt_is_Some_2 h a Hl) as [c Hc]. by rewrite Hc.
Qed.

Lemma deref_not_reassigned prefix errs h a :
  a ∉ errs -> deref (reassign_all prefix errs h) a = deref h a.
Proof. intros Ha. unfold deref. by rewrite reassign_all_notin. Qed.

(** After the call of a child and the absorption of its result, the
    accumulated result is what [Pure.absorb] computes. *)
Lemma absorb_good prefix h0 h h1 p r pc rc :
  extends h0 h -> good h0 h p r -> extends h h1 -> good h h1 pc rc ->
  exists r' h2, absorb prefix rc r h1 = Ok (r', h2) /\
                extends h0 h2 /\ good h0 h2 (Pure.absorb prefix pc p) r'.
Proof.
  intros He Hg He1 Hg1. unfold absorb, Pure.absorb.
  destruct Hg1 as (Hv1 & Hw1 & Hb1 & Hn1 & Hi1). rewrite Hv1.
  destruct pc as [b es]. simpl in *. destruct b.
  { exists r, h1. split; [done |]. split; [by eapply extends_trans |].
    by eapply good_stable. }
  assert (Hes : es <> []).
  { intros ->. destruct Hi1 as [_ Hi1]. by specialize (Hi1 eq_refl). }
  assert (Hrc : errors rc <> []).
  { intros E0. apply Hes. rewrite <- Hw1. unfold view. by rewrite E0. }
  rewrite aggregate_eq, fold_add_error, pure_aggregate_eq.
  eexists _, _. split; [reflexivity |].
  destruct He1 as (news & -> & Hok).
  destruct (reassign_all_app prefix (errors rc) h news) as (news' & E & Hok');
    [eapply Forall_impl; [exact Hb1 |]; simpl; lia | done |].
  pose proof (reassign_all_length prefix (errors rc) (h ++ news)) as Hlen.
  destruct Hg as (Hv & Hw & Hb & Hn & Hi).
  assert (Hdisj : forall a, a ∈ errors r -> a ∉ errors rc).
  { intros a Ha Ha'. rewrite Forall_forall in Hb, Hb1.
    apply Hb in Ha. apply Hb1 in Ha'. lia. }
  split; [| repeat split].
  - rewrite E. eapply extends_trans; [exact He |]. by exists news'.
  - simpl. by destruct (errors rc), es.
  - unfold view. simpl. rewrite map_app. f_equal.
    + rewrite <- Hw. apply map_ext_in. intros a Ha. apply list_elem_of_In in Ha.
      rewrite deref_not_reassigned by auto. apply deref_app_l.
      rewrite Forall_forall in Hb. apply Hb in Ha. lia.
    + rewrite <- Hw1. unfold view. rewrite map_map. apply map_ext_in.
      intros a Ha. apply list_elem_of_In in Ha. apply deref_reassigned; [done.. |].
      rewrite Forall_forall in Hb1. apply Hb1 in Ha. lia.
  - simpl. rewrite Hlen. apply Forall_app. split.
    + eapply Forall_impl; [exact Hb |]. simpl. intros a Ha. rewrite length_app. lia.
    + eapply Forall_impl; [exact Hb1 |]. simpl. intros a Ha.
      pose proof (extends_length _ _ He). lia.
  - simpl. apply NoDup_app. done.
  - simpl. by destruct es.
  - simpl. intros E'. apply app_eq_nil in E' as [_ E']. by destruct es.
Qed.

(** ** The composite validators refine their pure counterparts *)

Section Composites.

Context (lib : Lib).

Lemma list_items_agrees f pf items :
  refines f pf ->
  forall i h0 h p r,
    extends h0 h -> good h0 h p r ->
    agrees h0 (list_items f i items r) (Pure.list_items pf i items p) h.
Proof.
  intros Hf. induction items as [|x items IH]; intros i h0 h p r He Hg; simpl.
  - by apply agrees_ret.
  - pose proof (Hf x h) as Hx. unfold agrees in Hx. destruct (pf x) as [pc|e].
    + destruct Hx as (rc & h1 & E & He1 & Hg1).
      destruct (absorb_good ("[" +:+ str_of_Z (Z.of_nat i) +:+ "]") h0 h h1 p r pc rc
                  He Hg He1 Hg1) as (r' & h2 & E2 & He2 & Hg2).
      specialize (IH (S i) h0 h2 _ r' He2 Hg2).
      unfold agrees, bind in *. rewrite E, E2. exact IH.
    + unfold agrees, bind. by rewrite Hx.
Qed.

Lemma list_refines f pf mn mx u :
  match f, pf with
  | Some f', Some pf' => refines f' pf'
  | None, None => True
  | _, _ => False
  end ->
  refines (list_validate lib f mn mx u) (Pure.list_validate lib pf mn mx u).
Proof.
  intros Hf x h. agree_start h.
  unfold list_validate, Pure.list_validate, Pure.list_header.
  destruct x; cbv zeta; try (by apply agrees_fail).
  destruct f as [f'|], pf as [pf'|]; try done;
    repeat agree_step; by apply list_items_agrees.
Qed.

Lemma dict_fields_agrees schema entries :
  Forall (fun fv => refines (validate lib fv.2) (Pure.validate lib fv.2)) schema ->
  forall h0 h p r,
    extends h0 h -> good h0 h p r ->
    agrees h0
      (dict_fields (map (fun fv => (fv.1, validate lib fv.2)) schema) entries r)
      (Pure.dict_fields (map (fun fv => (fv.1, Pure.validate lib fv.2)) schema) entries p)
      h.
Proof.
  induction 1 as [|[name v] schema Hv _ IH]; intros h0 h p r He Hg; simpl.
  - by apply agrees_ret.
  - destruct (dict_get entries name) as [x|]; [| by apply agrees_ret_bind, IH].
    pose proof (Hv x h) as Hx. simpl in Hx. unfold agrees in Hx.
    destruct (Pure.validate lib v x) as [pc|e].
    + destruct Hx as (rc & h1 & E & He1 & Hg1).
      destruct (absorb_good name h0 h h1 p r pc rc He Hg He1 Hg1)
        as (r' & h2 & E2 & He2 & Hg2).
      specialize (IH h0 h2 _ r' He2 Hg2).
      unfold agrees, bind in *. rewrite E, E2. exact IH.
    + unfold agrees, bind. by rewrite Hx.
Qed.

Lemma map_fst_fields {A} (g : validator -> A) (schema : list (string * validator)) :
  map fst (map (fun fv => (fv.1, g fv.2)) schema) = map fst schema.
Proof. rewrite map_map. by apply map_ext. Qed.

Lemma dict_refines schema req au :
  Forall (fun fv => refines (validate lib fv.2) (Pure.validate lib fv.2)) schema ->
  refines (dict_validate (map (fun fv => (fv.1, validate lib fv.2)) schema) req au)
          (Pure.dict_validate (map (fun fv => (fv.1, Pure.validate lib fv.2)) schema) req au).
Proof.
  intros Hs x h. agree_start h.
  unfold dict_validate, Pure.dict_validate, Pure.dict_header.
  destruct x; cbv zeta; try (by apply agrees_fail).
  rewrite !map_fst_fields.
  repeat agree_step; by apply dict_fields_agrees.
Qed.

Lemma union_try_agrees vs x :
  Forall (fun v => refines (validate lib v) (Pure.validate lib v)) vs ->
  forall h0 h errs,
    extends h0 h ->
    Forall (fun a => (a < List.length h)%nat) errs ->
    match Pure.union_try (map (Pure.validate lib) vs) x (map (deref h) errs) with
    | Raise e => union_try (map (validate lib) vs) x errs h = Raise e
    | Ok (inl p) =>
        exists r h', union_try (map (validate lib) vs) x errs h = Ok (inl r, h') /\
                     extends h0 h' /\ good h0 h' p r
    | Ok (inr pes) =>
        exists es h', union_try (map (validate lib) vs) x errs h = Ok (inr es, h') /\
                      extends h0 h' /\ map (deref h') es = pes /\
                      Forall (fun a => (a < List.length h')%nat) es
    end.
Proof.
  induction 1 as [|v vs Hv _ IH]; intros h0 h errs He Hb; simpl.
  - by exists errs, h.
  - pose proof (Hv x h) as Hx. unfold agrees in Hx.
    destruct (Pure.validate lib v x) as [[b pes]|e]; [| unfold bind; by rewrite Hx].
    destruct Hx as (rc & h1 & E & He1 & Hg1). unfold bind. rewrite E.
    pose proof Hg1 as (Hv1 & Hw1 & Hb1 & _). simpl in Hv1, Hw1. rewrite Hv1. simpl.
    destruct b.
    + exists rc, h1. split; [done |]. split; [by eapply extends_trans |].
      eapply good_weaken; [| exact Hg1]. by apply extends_length.
    + assert (E' : map (deref h) errs ++ pes = map (deref h1) (errs ++ errors rc)).
      { rewrite map_app. fold (view h1 rc). rewrite Hw1. f_equal.
        apply map_ext_in. intros a Ha. symmetry. apply (extends_deref _ _ _ He1).
        rewrite List.Forall_forall in Hb. by apply Hb. }
      rewrite E'. apply IH; [by eapply extends_trans |].
      apply Forall_app. split.
      * eapply Forall_impl; [exact Hb |]. simpl. intros a Ha.
        pose proof (extends_length _ _ He1). lia.
      * eapply Forall_impl; [exact Hb1 |]. simpl. lia.
Qed.

Lemma union_refines vs :
  Forall (fun v => refines (validate lib v) (Pure.validate lib v)) vs ->
  refines (union_validate (map (validate lib) vs))
          (Pure.union_validate (map (Pure.validate lib) vs)).
Proof.
  intros Hvs x h. unfold union_validate, Pure.union_validate.
  destruct vs as [|v vs]; simpl map.
  { apply agrees_ret; [apply extends_refl | apply good_new]. }
  pose proof (union_try_agrees (v :: vs) x Hvs h h [] (extends_refl h) (Forall_nil_2 _)) as H.
  cbn [map] in H. unfold agrees, bind.
  destruct (Pure.union_try _ x []) as [[p|pes]|e].
  - destruct H as (r & h' & -> & He & Hg). by exists r, h'.
  - destruct H as (es & h' & -> & He & Hes & Hb).
    unfold messages_of, new_error, ret. eexists _, _. split; [reflexivity |].
    split; [by apply extends_alloc |].
    unfold good, view, Pure.add_error, Pure.union_error. simpl.
    rewrite deref_alloc, <- Hes, !map_map. repeat split; try done.
    + constructor; [| constructor]. rewrite length_app. simpl.
      pose proof (extends_length _ _ He). lia.
    + apply NoDup_singleton.
  - by rewrite H.
Qed.

Lemma optional_refines f pf :
  refines f pf -> refines (optional_validate f) (Pure.optional_validate pf).
Proof.
  intros Hf x h. unfold optional_validate, Pure.optional_validate.
  destruct x; try apply Hf. apply agrees_ret; [apply extends_refl | apply good_new].
Qed.

(** Every [validate] method refines its pure counterpart. *)
Lemma validate_refines v : refines (validate lib v) (Pure.validate lib v).
Proof.
  induction v using validator_induction; simpl.
  - apply string_refines.
  - apply number_refines.
  - apply boolean_refines.
  - apply date_refines.
  - apply list_refines. by destruct iv.
  - by apply dict_refines.
  - by apply union_refines.
  - by apply optional_refines.
  - intros x h. apply email_agrees.
  - intros x h. apply password_agrees.
  - apply phone_refines.
  - apply url_refines.
  - apply custom_refines.
  - done.
Qed.

(** What a caller observes of [validate] is what [Pure.validate] computes. *)
Lemma run_pure v x : run lib v x = Pure.validate lib v x.
Proof.
  unfold run. pose proof (validate_refines v x []) as H. unfold agrees in H.
  destruct (Pure.validate lib v x) as [[b es]|e]; [| by rewrite H].
  destruct H as (r & h' & -> & _ & Hv & Hw & _). simpl in *. by rewrite Hv, Hw.
Qed.

End Composites.

(** * The claims *)

Section Claims.

Context (lib : Lib).

Lemma validate_ok_inv v x h r h' :
  validate lib v x h = Ok (r, h') ->
  exists p, Pure.validate lib v x = Ok p /\ extends h h' /\ good h h' p r.
Proof.
  intros E. pose proof (validate_refines lib v x h) as H. unfold agrees in H.
  destruct (Pure.validate lib v x) as [p|e]; [| congruence].
  destruct H as (r0 & h0 & E0 & He & Hg). rewrite E in E0. injection E0 as <- <-.
  by exists p.
Qed.

(** C3. A result returned by [validate], for a validator of any class, is
    valid exactly when it holds no error. *)
Theorem C3_valid_iff_no_errors v x h r h' :
  validate lib v x h = Ok (r, h') ->
  (is_valid r = true <-> errors r = []).
Proof.
  intros E. destruct (validate_ok_inv _ _ _ _ _ E) as (p & _ & _ & Hv & Hw & _ & _ & Hi).
  rewrite Hv, Hi, <- Hw. unfold view. split.
  - intros H. by apply map_eq_nil in H.
  - by intros ->.
Qed.

(** C8 (amended). Validating a value twice in a row with the same validator,
    of any class, gives two results of the same validity holding equal errors
    (hence equal messages); a call that raises does so in every store.  The
    function of a [CustomValidator] is, as in [validator], a function of the
    value alone. *)
Theorem C8_validate_twice v x h0 :
  match validate lib v x h0 with
  | Ok (r1, h1) =>
      match validate lib v x h1 with
      | Ok (r2, h2) =>
          is_valid r1 = is_valid r2 /\
          map message (view h2 r1) = map message (view h2 r2) /\
          view h2 r1 = view h2 r2
      | Raise _ => False
      end
  | Raise e => forall h, validate lib v x h = Raise e
  end.
Proof.
  pose proof (validate_refines lib v x) as H. unfold refines, agrees in H.
  destruct (Pure.validate lib v x) as [p|e].
  - destruct (H h0) as (r1 & h1 & -> & He1 & Hg1).
    destruct (H h1) as (r2 & h2 & -> & He2 & Hg2).
    pose proof (good_stable _ _ _ _ _ He2 Hg1) as Hg1'.
    destruct Hg1' as (Hv1 & Hw1 & _), Hg2 as (Hv2 & Hw2 & _).
    rewrite Hv1, Hv2, Hw1, Hw2. done.
  - rewrite (H h0). exact H.
Qed.

Lemma history_same_message e past :
  history e past -> Forall (fun e' => message e' = message e /\ details e' = details e) past.
Proof.
  induction 1 as [|prefix e past _ IH]; constructor; [done |].
  eapply Forall_impl; [exact IH |]. done.
Qed.

(** C9. With [integer_only] set, a value that is not an [int] gets exactly the
    error "Expected integer but got ...", whatever its numeric value. *)
Theorem C9_integer_only_rejects_non_int c x :
  num_integer_only c = true -> is_int x = false ->
  run lib (NumberValidator c) x =
  Ok (false, [error_of ("Expected integer but got " +:+ type_name x)]).
Proof.
  intros Hc Hx. unfold run. simpl. unfold number_validate. by rewrite Hc, Hx.
Qed.

(** C10. A [bool] passes the type checks of every [NumberValidator], with or
    without [integer_only], and is then checked as the integer 0 or 1: if no
    bound and no sign constraint is violated, the result is valid. *)
Theorem C10_bool_accepted_as_number (c : NumberConfig) (b : bool) :
  (forall mn, num_min_value c = Some mn -> num_lt (NInt (if b then 1 else 0)) mn = false) ->
  (forall mx, num_max_value c = Some mx -> num_gt (NInt (if b then 1 else 0)) mx = false) ->
  num_allow_zero c = true \/ b = true ->
  run lib (NumberValidator c) (VBool b) = Ok (true, []).
Proof.
  intros Hmin Hmax Hz. rewrite run_pure. simpl. unfold Pure.number_validate. simpl.
  rewrite andb_false_r.
  assert (Hneg : num_lt (NInt (if b then 1 else 0)) (NInt 0) = false) by (by destruct b).
  assert (Hzero : negb (num_allow_zero c) && num_eq (NInt (if b then 1 else 0)) (NInt 0) = false).
  { destruct Hz as [-> | ->]; [done | apply andb_false_r]. }
  rewrite Hneg, andb_false_r, Hzero.
  destruct (num_min_value c) as [mn|]; [rewrite (Hmin mn eq_refl) |];
    (destruct (num_max_value c) as [mx|]; [rewrite (Hmax mx eq_refl) |]); done.
Qed.

End Claims.

Lemma C3_witness :
  exists h',
    validate example_lib phone_or_custom (VInt 1) [] =
      Ok ({| is_valid := false; errors := [2%nat] |}, h') /\
    (is_valid {| is_valid := false; errors := [2%nat] |} = true <->
     errors {| is_valid := false; errors := [2%nat] |} = []).
Proof.
  eexists. split; [reflexivity |].
  eapply (C3_valid_iff_no_errors example_lib phone_or_custom (VInt 1) []).
  reflexivity.
Defined.

Lemma C9_witness :
  run example_lib (NumberValidator age_number) (VFloat float_3) =
  Ok (false, [error_of "Expected integer but got float"]).
Proof.
  apply (C9_integer_only_rejects_non_int example_lib age_number (VFloat float_3));
    reflexivity.
Defined.

Lemma C10_witness :
  run example_lib (NumberValidator age_number) (VBool true) = Ok (true, []) /\
  run example_lib (NumberValidator age_number) (VBool false) = Ok (true, []).
Proof.
  split.
  - apply (C10_bool_accepted_as_number example_lib age_number true).
    + intros mn E. injection E as <-. reflexivity.
    + intros mx E. injection E as <-. reflexivity.
    + by left.
  - apply (C10_bool_accepted_as_number example_lib age_number false).
    + intros mn E. injection E as <-. reflexivity.
    + intros mx E. injection E as <-. reflexivity.
    + by left.
Defined.

Lemma str_items_ok keys :
  forallb is_str keys = true -> exists names, str_items keys = Ok names.
Proof.
  induction keys as [|k keys IH]; simpl; [by eexists |].
  intros [Hk Hks]%andb_prop. destruct k; try done.
  destruct (IH Hks) as (names & ->). by eexists.
Qed.

Lemma forallb_filter {A} (f g : A -> bool) l :
  forallb f l = true -> forallb f (List.filter g l) = true.
Proof.
  induction l as [|a l IH]; simpl; [done |].
  intros [Ha Hl]%andb_prop. destruct (g a); simpl; [rewrite Ha |]; auto.
Qed.

Section PrimitiveClaims.

Context (lib : Lib).

(** C4 (amended). A primitive validator answers a value of the wrong runtime
    type with exactly one error, the type-mismatch error, except that a
    [DateValidator] with a non-empty [format_str] parses a [str] value instead
    of rejecting it: if the string does not parse the only error is the
    format error, and if it parses the parsed date is validated in its
    place. *)
Theorem C4_wrong_type_single_error v x :
  primitive v = true -> expected_type v x = false ->
  match v with
  | DateValidator c =>
      match date_parse_format c x with
      | Some (s, fmt) =>
          match strptime_date lib s fmt with
          | Some ordinal => run lib v x = run lib v (VDate (PlainDate ordinal))
          | None =>
              run lib v x =
              Ok (false, [error_of ("Date string does not match format " +:+ fmt)])
          end
      | None => run lib v x = Ok (false, [type_mismatch v x])
      end
  | _ => run lib v x = Ok (false, [type_mismatch v x])
  end.
Proof.
  intros Hp Hx. destruct v as [c|c| |c| | | | | | | | | |]; try done; simpl in Hx.
  - rewrite run_pure. simpl. unfold Pure.string_validate. by destruct x.
  - rewrite run_pure. simpl. unfold Pure.number_validate, type_mismatch. simpl.
    destruct (num_integer_only c); simpl.
    + by rewrite Hx.
    + by destruct (as_num x).
  - rewrite run_pure. simpl. unfold Pure.boolean_validate. by destruct x.
  - rewrite !run_pure. simpl. unfold Pure.date_validate.
    destruct (date_parse_format c x) as [[s fmt]|] eqn:E.
    + destruct (strptime_date lib s fmt); [| done].
      rewrite run_pure. simpl. unfold Pure.date_validate. done.
    + by destruct x.
Qed.


End PrimitiveClaims.

Lemma C4_witness :
  run example_lib (StringValidator any_string) (VInt 1) =
  Ok (false, [error_of "Expected string but got int"]).
Proof.
  apply (C4_wrong_type_single_error example_lib (StringValidator any_string) (VInt 1));
    reflexivity.
Defined.

(** C4, as stated, fails: a [str] is not a date, yet the date validator with a
    format accepts the string "2024-01-15" without any error. *)
Lemma C4_date_string_accepted :
  primitive (DateValidator iso_date) = true /\
  expected_type (DateValidator iso_date) (VStr "2024-01-15") = false /\
  run example_lib (DateValidator iso_date) (VStr "2024-01-15") = Ok (true, []).
Proof. repeat split. Qed.


(** ** Field paths *)

Section Paths.

Context (lib : Lib).

Lemma pure_valid_iff v x p :
  Pure.validate lib v x = Ok p -> (p.1 = true <-> p.2 = []).
Proof.
  intros E. pose proof (validate_refines lib v x []) as H. unfold agrees in H.
  rewrite E in H. destruct H as (r & h' & _ & _ & _ & _ & _ & _ & Hi). exact Hi.
Qed.

Lemma run_valid_iff v x p : run lib v x = Ok p -> (p.1 = true <-> p.2 = []).
Proof. rewrite run_pure. apply pure_valid_iff. Qed.

Lemma pure_absorb_eq prefix (child acc : Pure.res) :
  (child.1 = true <-> child.2 = []) ->
  Pure.absorb prefix child acc = (acc.1 && child.1, acc.2 ++ map (prefixed prefix) child.2).
Proof.
  destruct child as [b es], acc as [b0 es0]. unfold Pure.absorb. simpl. intros [H1 H2].
  destruct b.
  - rewrite (H1 eq_refl). simpl. by rewrite andb_true_r, app_nil_r.
  - rewrite pure_aggregate_eq. simpl. rewrite andb_false_r.
    destruct es; [by specialize (H2 eq_refl) | done].
Qed.

Lemma pure_list_items_eq pf items results :
  Forall2 (fun x res => pf x = Ok res /\ (res.1 = true <-> res.2 = [])) items results ->
  forall i (acc : Pure.res),
    Pure.list_items pf i items acc =
    Ok (acc.1 && forallb fst results,
        acc.2 ++ concat (imap (fun k res =>
                   map (prefixed ("[" +:+ str_of_Z (Z.of_nat (i + k)) +:+ "]")) res.2)
                   results)).
Proof.
  induction 1 as [|x res items results [Hx Hres] _ IH]; intros i acc; simpl.
  - rewrite andb_true_r, app_nil_r. by destruct acc.
  - rewrite Hx, IH, pure_absorb_eq by done. simpl.
    rewrite Nat.add_0_r, <- andb_assoc, <- app_assoc. do 4 f_equal.
    apply (f_equal (fun l => concat l)), imap_ext. intros k r _. simpl. by rewrite Nat.add_succ_r.
Qed.

Lemma pure_dict_fields_eq (schema : list (string * validator)) entries outcomes :
  Forall2 (fun fv o =>
             match dict_get entries fv.1 with
             | Some y => exists res, Pure.validate lib fv.2 y = Ok res /\ o = Some res
             | None => o = None
             end) schema outcomes ->
  forall acc : Pure.res,
    Pure.dict_fields (map (fun fv => (fv.1, Pure.validate lib fv.2)) schema) entries acc =
    Ok (acc.1 && forallb (fun o => from_option fst true o) outcomes,
        acc.2 ++ concat (zip_with (fun fv o =>
                   from_option (fun res : Pure.res => map (prefixed fv.1) res.2) [] o)
                   schema outcomes)).
Proof.
  induction 1 as [|[name v] o schema outcomes Ho _ IH]; intros acc; simpl.
  - rewrite andb_true_r, app_nil_r. by destruct acc.
  - simpl in Ho. destruct (dict_get entries name) as [y|].
    + destruct Ho as (res & Hres & ->). rewrite Hres, IH.
      rewrite pure_absorb_eq by (by eapply pure_valid_iff). simpl.
      by rewrite <- andb_assoc, <- app_assoc.
    + subst o. rewrite IH. done.
Qed.


End Paths.



(** ** Schema-driven construction *)

Section SchemaConstruction.

Context (lib : Lib).

Lemma create_unsupported schema :
  supported_type (js_type schema) = false ->
  create_validator_for_schema lib schema = Raise TypeError.
Proof.
  destruct schema as [type ? ? ? ? ? ? ? ? ? ? ? ? ?]. unfold supported_type. simpl.
  intros H. repeat (apply orb_false_elim in H as [H ?]).
  by repeat match goal with E : is_type _ _ = false |- _ => rewrite E; clear E end.
Qed.

Lemma build_fields_raises required properties name field_schema :
  In (name, field_schema) properties ->
  supported_type (js_type field_schema) = false ->
  exists e, build_fields (create_validator_for_schema lib) required properties = Raise e.
Proof.
  intros Hin Hun. induction properties as [|[n s] properties IH]; [done |].
  simpl. destruct Hin as [[= -> ->] | Hin].
  - rewrite create_unsupported by done. by eexists.
  - destruct (create_validator_for_schema lib s); [| by eexists].
    destruct (IH Hin) as (e & ->). by eexists.
Qed.

(** C2 (the code departs from it). A property whose type tag is not one of
    the supported ones makes the construction of the schema validator raise:
    the default branch instantiates the abstract class [Validator]. *)
Theorem C2_unknown_type_raises schema name field_schema :
  In (name, field_schema) (js_properties schema) ->
  supported_type (js_type field_schema) = false ->
  exists e, new_JSONSchemaValidator lib schema = Raise e.
Proof.
  intros Hin Hun. destruct schema as [t properties required ? ? ? ? ? ? ? ? ? ? ?].
  simpl in Hin. unfold new_JSONSchemaValidator.
  destruct (build_fields_raises required properties name field_schema Hin Hun) as (e & ->).
  by eexists.
Qed.

End SchemaConstruction.

Lemma C2_witness : exists e, new_JSONSchemaValidator example_lib null_property_schema = Raise e.
Proof.
  apply (C2_unknown_type_raises example_lib null_property_schema "x"
           (schema_of_type (Some "null"))).
  - left. reflexivity.
  - reflexivity.
Defined.

Example null_property_raises_TypeError :
  new_JSONSchemaValidator example_lib null_property_schema = Raise TypeError.
Proof. reflexivity. Qed.
(** ** Where [validate] raises instead of reporting *)

Section Breaks.

Context (lib : Lib).

Lemma pure_raises v x e h : Pure.validate lib v x = Raise e -> validate lib v x h = Raise e.
Proof.
  intros E. pose proof (validate_refines lib v x h) as H. unfold agrees in H.
  by rewrite E in H.
Qed.

Lemma str_items_raises keys :
  existsb (fun key => negb (is_str key)) keys = true -> str_items keys = Raise TypeError.
Proof.
  induction keys as [|k keys IH]; simpl; [done |].
  destruct k; simpl; try done. intros H. by rewrite (IH H).
Qed.

Lemma unknown_keeps_non_strings names keys :
  existsb (fun key => negb (is_str key)) keys = true ->
  existsb (fun key => negb (is_str key))
    (List.filter (fun key => negb (key_in names key)) keys) = true.
Proof.
  induction keys as [|k keys IH]; simpl; [done |].
  intros [Hk | Hks]%orb_prop.
  - destruct k; try done; simpl; done.
  - destruct (negb (key_in names k)); simpl; rewrite (IH Hks); [apply orb_true_r | done].
Qed.

(** C6 fails in the code.  A [DictValidator] that rejects unknown fields
    raises [TypeError] on every dictionary with a key that is not a string,
    while it joins the names of the unknown fields for its error message; a
    [DateValidator] with a plain date as a bound raises [TypeError] on every
    [datetime], while it compares the two.  This is so in every store and for
    every schema, list of required fields and other bound. *)
Theorem C6_validate_raises_TypeError v x h :
  breaks v x = true -> validate lib v x h = Raise TypeError.
Proof.
  intros Hb. apply pure_raises. destruct v; try done.
  - destruct x; try done. simpl in Hb.
    destruct d as [|ordinal micros]; [done |]. simpl.
    unfold Pure.date_validate, Pure.date_range. simpl.
    destruct (date_min_date c) as [[mn|mn t]|]; simpl in *; try done.
    + destruct ((ordinal <? mn) || (ordinal =? mn) && (micros <? t));
        destruct (date_max_date c) as [[mx|mx u]|]; simpl in *; done.
    + destruct (date_max_date c) as [[mx|mx u]|]; simpl in *; done.
  - destruct allow_unknown; [by destruct x |]. destruct x; try done. simpl in Hb. simpl.
    unfold Pure.dict_validate, Pure.dict_header. simpl.
    rewrite map_fst_fields.
    pose proof (unknown_keeps_non_strings (map fst schema) _ Hb) as Hu.
    destruct (List.filter _ (map fst entries)) as [|k unknown] eqn:E; [done |].
    unfold join_values. by rewrite (str_items_raises _ Hu).
Qed.

End Breaks.

Lemma C6_witness :
  breaks (DictValidator [] [] false) (VDict [(VInt 1, VStr "x")]) = true /\
  validate example_lib (DictValidator [] [] false) (VDict [(VInt 1, VStr "x")]) []
  = Raise TypeError.
Proof.
  split; [reflexivity |].
  apply (C6_validate_raises_TypeError example_lib (DictValidator [] [] false)
           (VDict [(VInt 1, VStr "x")]) []).
  reflexivity.
Defined.

(** A [datetime] checked against a plain [date] bound. *)
Example datetime_against_date_raises :
  validate example_lib
    (DateValidator {| date_min_date := Some (PlainDate 737425);
                      date_max_date := None; date_format_str := None |})
    (VDate (DateTime 737942 0)) []
  = Raise TypeError.
Proof. reflexivity. Qed.

(** A dictionary of strings with the same validator: the unknown field is
    reported. *)
Example string_key_reported :
  run example_lib (DictValidator [] [] false) (VDict [(VStr "1", VStr "x")])
  = Ok (false, [error_of "Unknown fields: 1"]).
Proof. reflexivity. Qed.

(** C7, as stated, fails: the error constructed by the string validator with
    no field has the field "[0]" once the list validator has aggregated it. *)
Lemma C7_field_is_reassigned :
  exists r h',
    validate example_lib (ListValidator (Some (StringValidator any_string)) 0 None false)
      (VList [VInt 1]) [] = Ok (r, h') /\
    h' = [{| now := {| message := "Expected string but got int";
                       field := Some "[0]"; details := [] |};
             was := [{| message := "Expected string but got int";
                        field := None; details := [] |}] |}] /\
    ~ Forall unchanged h'.
Proof.
  eexists _, _. split; [reflexivity |]. split; [reflexivity |].
  intros H. apply Forall_cons in H as [H _]. unfold unchanged in H. simpl in H.
  apply Forall_cons in H as [H _]. discriminate H.
Qed.

(** * Further properties of the validators *)

Section NumberProperties.

Context (lib : Lib).

Lemma num_lt_int x y : num_lt (NInt x) (NInt y) = (x <? y).
Proof. unfold num_lt, Z.ltb. simpl. by destruct (x ?= y). Qed.

Lemma num_gt_int x y : num_gt (NInt x) (NInt y) = (y <? x).
Proof.
  unfold num_gt, Z.ltb. simpl. rewrite (Z.compare_antisym x y).
  by destruct (x ?= y).
Qed.

(** X1. The bounds of a [NumberValidator] are inclusive, and both range
    checks are made: an integer is accepted exactly when it lies between the
    bounds, and it gets one error for each bound it violates. *)
Theorem number_bounds_inclusive (a b z : Z) (integer_only : bool) :
  run lib
    (NumberValidator {| num_min_value := Some (NInt a); num_max_value := Some (NInt b);
                        num_integer_only := integer_only;
                        num_allow_negative := true; num_allow_zero := true |})
    (VInt z) =
  Ok ((a <=? z) && (z <=? b),
      (if z <? a then [error_of ("Value must be at least " +:+ str_of_Z a)] else []) ++
      (if b <? z then [error_of ("Value must not exceed " +:+ str_of_Z b)] else [])).
Proof.
  rewrite run_pure. simpl. unfold Pure.number_validate. simpl.
  rewrite andb_false_r, num_lt_int, num_gt_int.
  rewrite (Z.leb_antisym z a), (Z.leb_antisym b z).
  by destruct (z <? a), (b <? z).
Qed.

Lemma nan_compare (n : num) : num_compare (NFloat S754_nan) n = None.
Proof. destruct n as [y|y]; simpl; [done | by destruct y]. Qed.

(** X2. A NaN passes every check of a [NumberValidator] that is not
    integer-only: whatever the bounds and the sign flags, it is accepted. *)
Theorem nan_passes_every_range c :
  num_integer_only c = false ->
  run lib (NumberValidator c) (VFloat S754_nan) = Ok (true, []).
Proof.
  intros Hc. rewrite run_pure. simpl. unfold Pure.number_validate. simpl.
  rewrite Hc. simpl. unfold num_lt, num_gt, num_eq.
  destruct (num_min_value c), (num_max_value c);
    rewrite !nan_compare, !andb_false_r; done.
Qed.

(** X3. With [allow_zero] unset, zero is rejected in every numeric type:
    [0], [False], [0.0] and [-0.0] all get the error "Zero value is not
    allowed" (unless the integer-only check rejects the float first). *)
Theorem zero_rejected_in_every_type c x :
  num_allow_zero c = false -> zero_like x ->
  num_integer_only c = false \/ is_int x = true ->
  exists errs,
    run lib (NumberValidator c) x = Ok (false, errs) /\
    last errs = Some (error_of "Zero value is not allowed").
Proof.
  intros Hz Hx Hio. rewrite run_pure. simpl. unfold Pure.number_validate.
  assert (Hgate : num_integer_only c && negb (is_int x) = false).
  { destruct Hio as [-> | ->]; [done | apply andb_false_r]. }
  rewrite Hgate, Hz.
  assert (exists n, as_num x = Some n /\ num_eq n (NInt 0) = true) as (n & -> & ->).
  { destruct Hx as [-> | [-> | (s & ->)]]; eexists; (split; [reflexivity | done]). }
  simpl. unfold Pure.fail_with, Pure.add_error. eexists. split; [reflexivity |].
  simpl. apply last_snoc.
Qed.

End NumberProperties.

Lemma nan_passes_every_range_witness :
  run example_lib
    (NumberValidator {| num_min_value := Some (NInt 0); num_max_value := Some (NInt 120);
                        num_integer_only := false;
                        num_allow_negative := false; num_allow_zero := false |})
    (VFloat S754_nan) = Ok (true, []).
Proof. apply (nan_passes_every_range example_lib); reflexivity. Defined.

Lemma zero_rejected_witness :
  exists errs,
    run example_lib
      (NumberValidator {| num_min_value := None; num_max_value := None;
                          num_integer_only := true;
                          num_allow_negative := true; num_allow_zero := false |})
      (VBool false) = Ok (false, errs) /\
    last errs = Some (error_of "Zero value is not allowed").
Proof.
  apply (zero_rejected_in_every_type example_lib).
  - reflexivity.
  - right. by left.
  - by right.
Defined.

Section StringProperties.

Context (lib : Lib).

(** X4. A [StringValidator] accepts a string exactly when it meets all four
    constraints (minimum length, maximum length, pattern, allowed values; an
    empty list of allowed values restricts nothing), and otherwise reports
    one error for each constraint violated: the checks do not stop at the
    first failure. *)
Theorem string_one_error_per_violation c s :
  exists errs,
    run lib (StringValidator c) (VStr s) = Ok (forallb id (string_constraints c s), errs) /\
    List.length errs = violations (string_constraints c s).
Proof.
  rewrite run_pure. cbn [Pure.validate].
  unfold Pure.string_validate, string_constraints, violations. cbv zeta.
  rewrite (Z.leb_antisym (Z.of_nat (String.length s)) (str_min_length c)).
  destruct (Z.of_nat (String.length s) <? str_min_length c);
    (destruct (str_max_length c) as [mx|];
       [rewrite (Z.leb_antisym mx (Z.of_nat (String.length s)));
        destruct (mx <? Z.of_nat (String.length s)) |]);
    (destruct (str_pattern c) as [p|]; [destruct (pattern_match p s) |]);
    (destruct (str_allowed_values c) as [[|a allowed]|];
       [| generalize (existsb (String.eqb s) (a :: allowed)); intros [|] |]);
    eexists; split; reflexivity.
Qed.

End StringProperties.

Section CompositeProperties.

Context (lib : Lib).







Lemma list_observed iv mn mx u items results :
  Forall2 (fun x res => run lib iv x = Ok res) items results ->
  run lib (ListValidator (Some iv) mn mx u) (VList items) =
  Ok ((Pure.list_header lib mn mx u items).1 && forallb fst results,
      (Pure.list_header lib mn mx u items).2 ++
      concat (imap (fun i res =>
                map (prefixed ("[" +:+ str_of_Z (Z.of_nat i) +:+ "]")) res.2) results)).
Proof.
  intros H. rewrite run_pure. simpl.
  apply pure_list_items_eq. eapply Forall2_impl; [exact H |].
  intros x res Hx. split; [by rewrite <- run_pure | exact (run_valid_iff _ _ _ _ Hx)].
Qed.


(** X6. A list is accepted exactly when its length is within the inclusive
    bounds, it has no duplicates if [unique_items] is set, and every item is
    accepted. *)
Theorem list_accepted_iff iv mn mx u items results :
  Forall2 (fun x res => run lib iv x = Ok res) items results ->
  exists errs,
    run lib (ListValidator (Some iv) mn mx u) (VList items) =
    Ok ((mn <=? Z.of_nat (List.length items)) &&
        match mx with Some m => Z.of_nat (List.length items) <=? m | None => true end &&
        negb (u && has_duplicates lib items) &&
        forallb fst results, errs).
Proof.
  intros H. rewrite (list_observed _ _ _ _ _ _ H). eexists.
  f_equal. f_equal. f_equal.
  unfold Pure.list_header. cbv zeta.
  rewrite (Z.leb_antisym (Z.of_nat (List.length items)) mn).
  destruct (Z.of_nat (List.length items) <? mn);
    (destruct mx as [m|];
       [rewrite (Z.leb_antisym m (Z.of_nat (List.length items)));
        destruct (m <? Z.of_nat (List.length items)) |]);
    destruct (u && has_duplicates lib items); reflexivity.
Qed.

Lemma filter_negb_nil {A} (f : A -> bool) l :
  (match List.filter (fun a => negb (f a)) l with [] => true | _ :: _ => false end)
  = forallb f l.
Proof.
  induction l as [|a l IH]; [done |]. simpl. destruct (f a); simpl; [exact IH | done].
Qed.

Lemma dict_header_valid names req au entries :
  forallb is_str (map fst entries) = true ->
  exists header,
    Pure.dict_header names req au entries = Ok header /\
    header.1 = forallb (dict_has entries) req &&
               (au || forallb (key_in names) (map fst entries)).
Proof.
  intros Hk. unfold Pure.dict_header. cbv zeta.
  pose proof (filter_negb_nil (dict_has entries) req) as Hm.
  pose proof (filter_negb_nil (key_in names) (map fst entries)) as Hu.
  destruct (str_items_ok (List.filter (fun key => negb (key_in names key)) (map fst entries)))
    as (ss & Hss); [by apply forallb_filter |].
  unfold join_values. rewrite Hss, <- Hm, <- Hu.
  destruct (List.filter (fun field => negb (dict_has entries field)) req);
    destruct au;
    destruct (List.filter (fun key => negb (key_in names key)) (map fst entries));
    eexists; split; reflexivity.
Qed.

Lemma dict_observed schema req au entries header outcomes :
  Pure.dict_header (map fst schema) req au entries = Ok header ->
  Forall2 (fun fv o =>
             match dict_get entries fv.1 with
             | Some y => exists res, run lib fv.2 y = Ok res /\ o = Some res
             | None => o = None
             end) schema outcomes ->
  run lib (DictValidator schema req au) (VDict entries) =
  Ok (header.1 && forallb (fun o => from_option fst true o) outcomes,
      header.2 ++
      concat (zip_with (fun fv o =>
                from_option (fun res : Pure.res => map (prefixed fv.1) res.2) [] o)
                schema outcomes)).
Proof.
  intros Hh H. rewrite run_pure. simpl.
  rewrite map_fst_fields, Hh. apply pure_dict_fields_eq.
  eapply Forall2_impl; [exact H |]. intros fv o Ho. cbv beta in *.
  destruct (dict_get entries fv.1); [| done].
  destruct Ho as (res & Hres & ->). exists res. by rewrite <- run_pure.
Qed.

(** X7. A dictionary with string keys is accepted exactly when no required
    field is missing, every key is a field of the schema (unless unknown
    fields are allowed), and every field of the schema that is present is
    accepted by its validator; a field of the schema that is absent and not
    required is not an error. *)
Theorem dict_accepted_iff schema req au entries outcomes :
  forallb is_str (map fst entries) = true ->
  Forall2 (fun fv o =>
             match dict_get entries fv.1 with
             | Some y => exists res, run lib fv.2 y = Ok res /\ o = Some res
             | None => o = None
             end) schema outcomes ->
  exists errs,
    run lib (DictValidator schema req au) (VDict entries) =
    Ok (forallb (dict_has entries) req &&
        (au || forallb (key_in (map fst schema)) (map fst entries)) &&
        forallb (fun o => from_option fst true o) outcomes, errs).
Proof.
  intros Hk H.
  destruct (dict_header_valid (map fst schema) req au entries Hk) as (header & Hh & Hv).
  rewrite (dict_observed _ _ _ _ _ _ Hh H), Hv. by eexists.
Qed.

Lemma pure_absorb_invalid prefix child (acc : Pure.res) :
  acc.1 = false -> (Pure.absorb prefix child acc).1 = false.
Proof.
  intros Ha. unfold Pure.absorb. destruct child.1; [done |].
  rewrite pure_aggregate_eq. simpl. by destruct child.2.
Qed.

Lemma pure_dict_fields_invalid fields entries (acc res : Pure.res) :
  acc.1 = false -> Pure.dict_fields fields entries acc = Ok res -> res.1 = false.
Proof.
  revert acc. induction fields as [|[name f] fields IH]; intros acc Ha; simpl.
  - by intros [= <-].
  - destruct (dict_get entries name) as [y|]; [| by apply IH].
    destruct (f y); [| done]. apply IH. by apply pure_absorb_invalid.
Qed.

Lemma dict_has_key entries name :
  dict_has entries name = true -> In (VStr name) (map fst entries).
Proof.
  unfold dict_has. induction entries as [|[k y] entries IH]; simpl; [done |].
  destruct k; auto. destruct (String.eqb s name) eqn:E; [| auto].
  intros _. left. apply String.eqb_eq in E. by subst.
Qed.

(** X8. A required field that the schema does not declare can never be
    satisfied when unknown fields are rejected: leaving it out is reported as
    missing, giving it is reported as unknown, so no dictionary is
    accepted. *)
Theorem undeclared_required_field_never_satisfied schema req entries name b errs :
  In name req ->
  existsb (String.eqb name) (map fst schema) = false ->
  run lib (DictValidator schema req false) (VDict entries) = Ok (b, errs) ->
  b = false.
Proof.
  intros Hreq Hschema. rewrite run_pure. simpl. rewrite map_fst_fields.
  destruct (Pure.dict_header (map fst schema) req false entries) as [header|] eqn:Hh;
    [| done].
  intros Hrun.
  refine (pure_dict_fields_invalid _ entries header (b, errs) _ Hrun).
  revert Hh. unfold Pure.dict_header. cbv zeta. simpl.
  destruct (dict_has entries name) eqn:Hhas.
  - assert (Hin : In (VStr name)
                    (List.filter (fun key => negb (key_in (map fst schema) key))
                       (map fst entries))).
    { apply filter_In. split; [by apply dict_has_key |]. simpl. by rewrite Hschema. }
    destruct (List.filter _ (map fst entries)) as [|k ks]; [done |].
    destruct (join_values ", " (k :: ks)); [| done]. by intros [= <-].
  - assert (Hin : In name (List.filter (fun field => negb (dict_has entries field)) req)).
    { apply filter_In. split; [done |]. by rewrite Hhas. }
    destruct (List.filter _ req) as [|m ms]; [done |].
    destruct (List.filter _ (map fst entries)) as [|k ks]; [by intros [= <-] |].
    destruct (join_values ", " (k :: ks)); [| done]. by intros [= <-].
Qed.

Lemma pure_union_try_verdict (vs : list validator) x results :
  Forall2 (fun w res => Pure.validate lib w x = Ok res) vs results ->
  forall acc,
    match Pure.union_try (map (Pure.validate lib) vs) x acc with
    | Ok (inl r) => existsb fst results = true /\ r.1 = true
    | Ok (inr _) => existsb fst results = false
    | Raise _ => False
    end.
Proof.
  induction 1 as [|w [b es] vs results Hw _ IH]; intros acc; simpl; [done |].
  rewrite Hw. simpl. destruct b; [done |]. apply IH.
Qed.

(** X9. When every candidate returns, a union accepts a value exactly when
    some candidate accepts it: the verdict does not depend on the order of
    the candidates (the errors reported do). *)
Theorem union_accepts_iff_some_candidate vs x results :
  vs <> [] ->
  Forall2 (fun w res => run lib w x = Ok res) vs results ->
  exists errs, run lib (UnionValidator vs) x = Ok (existsb fst results, errs).
Proof.
  intros Hne H. rewrite run_pure. simpl. unfold Pure.union_validate.
  assert (H' : Forall2 (fun w res => Pure.validate lib w x = Ok res) vs results).
  { eapply Forall2_impl; [exact H |]. intros w res Hw. cbv beta in *.
    by rewrite <- run_pure. }
  pose proof (pure_union_try_verdict vs x results H' []) as Ht.
  destruct vs as [|v vs]; [done |]. cbn [map] in *.
  destruct (Pure.union_try _ x []) as [[[b es]|es]|e]; [| | done].
  - destruct Ht as [-> Hb]. simpl in Hb. subst b. by eexists.
  - rewrite Ht. by eexists.
Qed.

End CompositeProperties.


Lemma list_accepted_iff_witness :
  exists errs,
    run example_lib (ListValidator (Some (StringValidator any_string)) 1 (Some 2) false)
      (VList [VStr "x"; VInt 1]) =
    Ok ((1 <=? Z.of_nat (List.length [VStr "x"; VInt 1])) &&
        (Z.of_nat (List.length [VStr "x"; VInt 1]) <=? 2) &&
        negb (false && has_duplicates example_lib [VStr "x"; VInt 1]) &&
        forallb fst ([(true, []); (false, [error_of "Expected string but got int"])]
                       : list Pure.res), errs).
Proof.
  apply (list_accepted_iff example_lib (StringValidator any_string) 1 (Some 2) false
           [VStr "x"; VInt 1]
           [(true, []); (false, [error_of "Expected string but got int"])]).
  repeat constructor.
Defined.

Lemma dict_accepted_iff_witness :
  exists errs,
    run example_lib
      (DictValidator [("name", StringValidator any_string); ("nick", StringValidator any_string)]
         ["name"] false)
      (VDict [(VStr "name", VStr "Ann")]) =
    Ok (forallb (dict_has [(VStr "name", VStr "Ann")]) ["name"] &&
        (false || forallb (key_in ["name"; "nick"]) [VStr "name"]) &&
        forallb (fun o => from_option fst true o)
          ([Some (true, []); None] : list (option Pure.res)), errs).
Proof.
  apply (dict_accepted_iff example_lib
           [("name", StringValidator any_string); ("nick", StringValidator any_string)]
           ["name"] false [(VStr "name", VStr "Ann")] [Some (true, []); None]).
  - reflexivity.
  - constructor; [| constructor; [| constructor]].
    + exists (true, []). split; reflexivity.
    + reflexivity.
Defined.

Lemma undeclared_required_field_witness :
  run example_lib (DictValidator [] ["a"] false) (VDict [(VStr "a", VInt 1)])
    = Ok (false, [error_of "Unknown fields: a"]) /\
  false = false.
Proof.
  split; [reflexivity |].
  apply (undeclared_required_field_never_satisfied example_lib [] ["a"]
           [(VStr "a", VInt 1)] "a" false [error_of "Unknown fields: a"]).
  - by left.
  - reflexivity.
  - reflexivity.
Defined.

Lemma union_accepts_iff_witness :
  exists errs,
    run example_lib (UnionValidator [StringValidator any_string; BooleanValidator])
      (VBool true) =
    Ok (existsb fst ([(false, [error_of "Expected string but got bool"]); (true, [])]
                       : list Pure.res), errs).
Proof.
  apply (union_accepts_iff_some_candidate example_lib
           [StringValidator any_string; BooleanValidator] (VBool true)
           [(false, [error_of "Expected string but got bool"]); (true, [])]).
  - discriminate.
  - repeat constructor.
Defined.

(** ** Schema-driven construction, continued *)

Section JschemaInduction.

Variable P : jschema -> Prop.

Hypothesis P_schema :
  forall type properties required additionalProperties minLength maxLength pattern enum
         minimum maximum items minItems maxItems uniqueItems,
    Forall (fun property => P property.2) properties ->
    match items with Some items_schema => P items_schema | None => True end ->
    P (JSchema type properties required additionalProperties minLength maxLength pattern enum
         minimum maximum items minItems maxItems uniqueItems).

Fixpoint jschema_induction (schema : jschema) : P schema :=
  match schema with
  | JSchema type properties required additionalProperties minLength maxLength pattern enum
      minimum maximum items minItems maxItems uniqueItems =>
      P_schema type properties required additionalProperties minLength maxLength pattern enum
        minimum maximum items minItems maxItems uniqueItems
        ((fix go (l : list (string * jschema)) : Forall (fun property => P property.2) l :=
            match l with
            | [] => List.Forall_nil _
            | property :: l' =>
                @List.Forall_cons _ (fun property => P property.2) property l'
                  (jschema_induction property.2) (go l')
            end) properties)
        match items return match items with Some s => P s | None => True end with
        | Some items_schema => jschema_induction items_schema
        | None => I
        end
  end.

End JschemaInduction.

Section SchemaProperties.

Context (lib : Lib).

Lemma build_fields_succeeds create required properties :
  succeeds (build_fields create required properties) <->
  Forall (fun property => succeeds (create property.2)) properties.
Proof.
  induction properties as [|[name s] properties IH]; simpl.
  - split; [constructor | by eexists].
  - rewrite Forall_cons, <- IH. simpl. unfold succeeds.
    destruct (create s) as [v|e].
    + destruct (build_fields create required properties) as [[vs rs]|e].
      * split; [intros _; split; by eexists | by eexists].
      * split; [by intros [? ?] | by intros [_ [? ?]]].
    + split; [by intros [? ?] | by intros [[? ?] _]].
Qed.

Lemma create_succeeds schema :
  succeeds (create_validator_for_schema lib schema) <-> buildable lib schema = true.
Proof.
  induction schema as [type properties required ap minL maxL pattern enum mn mx items
                         minI maxI uniq IHp IHi] using jschema_induction.
  simpl. unfold succeeds in *.
  destruct (is_type "string" type).
  { unfold new_StringValidator. destruct pattern as [src|]; [| split; [done | by eexists]].
    destruct (re_compile lib src).
    - split; [done | by eexists].
    - split; [by intros [? ?] | done]. }
  destruct (is_type "number" type || is_type "integer" type); [split; [done | by eexists] |].
  destruct (is_type "boolean" type); [split; [done | by eexists] |].
  destruct (is_type "array" type).
  { destruct items as [items_schema|].
    - rewrite <- IHi. destruct (create_validator_for_schema lib items_schema).
      + split; by eexists.
      + split; by intros [? ?].
    - unfold new_Validator. simpl. split; [by intros [? ?] | done]. }
  destruct (is_type "object" type).
  { rewrite forallb_forall.
    pose proof (build_fields_succeeds (create_validator_for_schema lib) required properties)
      as Hb. unfold succeeds in Hb.
    rewrite Forall_forall in IHp. split.
    - intros Hok property Hin.
      apply IHp; [by apply list_elem_of_In |].
      assert (Hs : exists a, build_fields (create_validator_for_schema lib) required
                               properties = Ok a).
      { destruct (build_fields _ required properties) as [[? ?]|]; [by eexists |].
        by destruct Hok. }
      apply Hb in Hs. rewrite Forall_forall in Hs. apply Hs. by apply list_elem_of_In.
    - intros Hall.
      assert (Hs : exists a, build_fields (create_validator_for_schema lib) required
                               properties = Ok a).
      { apply Hb. apply Forall_forall. intros property Hin. apply IHp; [done |].
        apply Hall. by apply list_elem_of_In. }
      destruct Hs as ([? ?] & ->). by eexists. }
  unfold new_Validator. simpl. split; [by intros [? ?] | done].
Qed.

(** X10. A schema validator can be constructed exactly when every property,
    at every depth, has a supported type tag, every pattern compiles and
    every array gives an [items] schema; in every other case (a missing or
    unknown type, an array without [items]) the constructor raises. *)
Theorem construction_succeeds_iff schema :
  (exists v, new_JSONSchemaValidator lib schema = Ok v) <->
  forallb (fun property => buildable lib property.2) (js_properties schema) = true.
Proof.
  destruct schema as [type properties required ap minL maxL pattern enum mn mx items
                        minI maxI uniq]. simpl.
  pose proof (build_fields_succeeds (create_validator_for_schema lib) required properties)
    as Hb. unfold succeeds in Hb.
  rewrite forallb_forall. split.
  - intros Hok property Hin. apply create_succeeds.
    assert (Hs : exists a, build_fields (create_validator_for_schema lib) required
                             properties = Ok a).
    { destruct (build_fields _ required properties) as [[? ?]|]; [by eexists |].
      by destruct Hok. }
    apply Hb in Hs. rewrite Forall_forall in Hs. apply Hs. by apply list_elem_of_In.
  - intros Hall.
    assert (Hs : exists a, build_fields (create_validator_for_schema lib) required
                             properties = Ok a).
    { apply Hb. apply Forall_forall. intros property Hin. apply create_succeeds.
      apply Hall. by apply list_elem_of_In. }
    destruct Hs as ([? ?] & ->). by eexists.
Qed.

Lemma build_fields_shape create required properties fields required_fields :
  build_fields create required properties = Ok (fields, required_fields) ->
  map fst fields = map fst properties /\
  required_fields =
    List.filter (fun name => existsb (String.eqb name) required) (map fst properties).
Proof.
  revert fields required_fields.
  induction properties as [|[name s] properties IH]; intros fields rf; simpl.
  - by intros [= <- <-].
  - destruct (create s) as [v|]; [| done].
    destruct (build_fields create required properties) as [[vs rs]|]; [| done].
    destruct (IH vs rs eq_refl) as [Hn Hr]. intros [= <- <-]. simpl.
    split; [by rewrite Hn |]. destruct (existsb (String.eqb name) required); by rewrite Hr.
Qed.

(** X11. The validator of a schema is a [DictValidator] over the properties,
    in their order, that rejects unknown fields unless [additionalProperties]
    is false, and that requires the properties named in [required], in the
    order of the properties: a name in [required] that is not a property is
    dropped. *)
Theorem schema_validator_shape schema v :
  new_JSONSchemaValidator lib schema = Ok v ->
  exists fields,
    v = JSONSchemaValidator
          (DictValidator fields
             (List.filter (fun name => existsb (String.eqb name) (js_required schema))
                (map fst (js_properties schema)))
             (negb (default true (js_additionalProperties schema)))) /\
    map fst fields = map fst (js_properties schema).
Proof.
  destruct schema as [type properties required ap minL maxL pattern enum mn mx items
                        minI maxI uniq]. simpl.
  destruct (build_fields _ required properties) as [[fields rf]|] eqn:E; [| done].
  intros [= <-]. destruct (build_fields_shape _ _ _ _ _ E) as [Hn ->]. by exists fields.
Qed.

(** X12. Unless [additionalProperties] is false, the validator of a schema
    never accepts a dictionary that has a key the schema does not declare. *)
Theorem undeclared_key_rejected schema v entries key b errs :
  new_JSONSchemaValidator lib schema = Ok v ->
  js_additionalProperties schema <> Some false ->
  In (VStr key) (map fst entries) ->
  existsb (String.eqb key) (map fst (js_properties schema)) = false ->
  run lib v (VDict entries) = Ok (b, errs) ->
  b = false.
Proof.
  intros Hnew Hap Hkey Hundeclared.
  destruct schema as [type properties required ap minL maxL pattern enum mn mx items
                        minI maxI uniq]. simpl in *.
  destruct (build_fields _ required properties) as [[fields rf]|] eqn:E; [| done].
  injection Hnew as <-. destruct (build_fields_shape _ _ _ _ _ E) as [Hn _].
  assert (Hau : negb (default true ap) = false) by (by destruct ap as [[|]|]).
  rewrite Hau, run_pure. simpl. rewrite map_fst_fields, Hn.
  destruct (Pure.dict_header (map fst properties) rf false entries) as [header|] eqn:Hh;
    [| done].
  intros Hrun. refine (pure_dict_fields_invalid _ entries header (b, errs) _ Hrun).
  revert Hh. unfold Pure.dict_header. cbv zeta. simpl.
  assert (Hin : In (VStr key)
                  (List.filter (fun k => negb (key_in (map fst properties) k))
                     (map fst entries))).
  { apply filter_In. split; [done |]. simpl. by rewrite Hundeclared. }
  destruct (List.filter _ (map fst entries)) as [|k ks]; [done |].
  destruct (join_values ", " (k :: ks)); [| done].
  destruct (List.filter _ rf); by intros [= <-].
Qed.

End SchemaProperties.

Lemma undeclared_key_rejected_witness :
  new_JSONSchemaValidator example_lib
    (JSchema None [("x", schema_of_type (Some "string"))] [] None
       None None None None None None None None None None)
  = Ok (JSONSchemaValidator (DictValidator [("x", StringValidator any_string)] [] false)) /\
  false = false.
Proof.
  split; [reflexivity |].
  apply (undeclared_key_rejected example_lib
           (JSchema None [("x", schema_of_type (Some "string"))] [] None
              None None None None None None None None None None)
           (JSONSchemaValidator (DictValidator [("x", StringValidator any_string)] [] false))
           [(VStr "y", VInt 1)] "y" false [error_of "Unknown fields: y"]).
  - reflexivity.
  - discriminate.
  - by left.
  - reflexivity.
  - reflexivity.
Defined.

Lemma schema_validator_shape_witness :
  exists fields,
    JSONSchemaValidator (DictValidator [("x", StringValidator any_string)] [] false) =
    JSONSchemaValidator
      (DictValidator fields
         (List.filter (fun name => existsb (String.eqb name) ["ghost"]) ["x"])
         (negb (default true None))) /\
    map fst fields = ["x"].
Proof.
  apply (schema_validator_shape example_lib
           (JSchema None [("x", schema_of_type (Some "string"))] ["ghost"] None
              None None None None None None None None None None)).
  reflexivity.
Defined.

(** ** Observing a computation *)

Lemma observe_agrees m pm : agrees [] m pm [] -> observe m = pm.
Proof.
  unfold agrees, observe. destruct pm as [[b es]|e]; [| by intros ->].
  intros (r & h' & -> & _ & Hv & Hw & _). simpl in *. by rewrite Hv, Hw.
Qed.

(** ** Regular expressions *)

#[local] Arguments String.append : simpl nomatch.

Lemma append_assoc (a b c : string) : (a +:+ b) +:+ c = a +:+ (b +:+ c).
Proof. induction a as [|x a IH]; simpl; [done | by f_equal]. Qed.

Lemma append_nil_r (a : string) : a +:+ "" = a.
Proof. induction a as [|x a IH]; simpl; [done | by f_equal]. Qed.

Lemma nullable_sound r : nullable r = true -> in_lang r "".
Proof.
  induction r as [| |f|r1 IH1 r2 IH2|r1 IH1 r2 IH2|r IH]; simpl; try done.
  - intros _. constructor.
  - intros [H1 H2]%andb_prop. apply (in_seq r1 r2 "" ""); auto.
  - intros [H|H]%orb_prop; [apply in_alt_l | apply in_alt_r]; auto.
  - intros _. constructor.
Qed.

Lemma derivative_sound c r s : in_lang (derivative c r) s -> in_lang r (String c s).
Proof.
  revert s. induction r as [| |f|r1 IH1 r2 IH2|r1 IH1 r2 IH2|r IH]; simpl; intros s H.
  - inversion H.
  - inversion H.
  - destruct (f c) eqn:E; inversion H; subst. by constructor.
  - inversion H as [| | |? ? ? H'|? ? ? H'| |]; subst.
    + inversion H' as [| |? ? s1 s2 H1 H2| | | |]; subst.
      apply (in_seq r1 r2 (String c s1) s2); auto.
    + destruct (nullable r1) eqn:E; [| inversion H'].
      apply (in_seq r1 r2 "" (String c s)); [by apply nullable_sound | auto].
  - inversion H; subst; [apply in_alt_l | apply in_alt_r]; auto.
  - inversion H as [| |? ? s1 s2 H1 H2| | | |]; subst.
    apply (in_star_more r (String c s1) s2); auto.
Qed.

Lemma fullmatch_sound r s : fullmatch r s = true -> in_lang r s.
Proof.
  revert r. induction s as [|c s IH]; simpl; intros r H.
  - by apply nullable_sound.
  - by apply derivative_sound, IH.
Qed.

Lemma all_chars_app f a b : all_chars f (a +:+ b) = all_chars f a && all_chars f b.
Proof. induction a as [|x a IH]; simpl; [done |]. by rewrite IH, andb_assoc. Qed.

Lemma all_chars_impl (f g : ascii -> bool) s :
  (forall c, f c = true -> g c = true) -> all_chars f s = true -> all_chars g s = true.
Proof.
  intros Hfg. induction s as [|c s IH]; simpl; [done |].
  intros [Hc Hs]%andb_prop. rewrite (Hfg c Hc). auto.
Qed.

Lemma in_class_inv f s : in_lang (Class f) s -> exists c, s = String c "" /\ f c = true.
Proof. inversion 1; subst. by eexists. Qed.

Lemma in_seq_inv r1 r2 s :
  in_lang (Seq r1 r2) s -> exists s1 s2, s = s1 +:+ s2 /\ in_lang r1 s1 /\ in_lang r2 s2.
Proof. inversion 1; subst. by eexists _, _. Qed.

Lemma in_star_class f s : in_lang (Star (Class f)) s -> all_chars f s = true.
Proof.
  intros H. remember (Star (Class f)) as r eqn:Er.
  induction H as [| | | | | |r s1 s2 H1 _ H2 IH2]; try done.
  injection Er as ->. rewrite all_chars_app, IH2 by done.
  destruct (in_class_inv _ _ H1) as (c & -> & Hc). simpl. by rewrite Hc.
Qed.

Lemma in_plus_class f s :
  in_lang (Plus (Class f)) s -> all_chars f s = true /\ s <> "".
Proof.
  intros (s1 & s2 & -> & H1 & H2)%in_seq_inv.
  destruct (in_class_inv _ _ H1) as (c & -> & Hc). simpl.
  rewrite Hc, (in_star_class _ _ H2). done.
Qed.

(** ** Splitting and searching strings *)

Lemma split_char_none sep s :
  all_chars (other_than sep) s = true -> split_char sep s = [s].
Proof.
  induction s as [|c s IH]; simpl; [done |]. unfold other_than at 1.
  intros [Hc Hs]%andb_prop. apply negb_true_iff in Hc. rewrite Hc, IH; done.
Qed.

Lemma split_char_first sep a b :
  all_chars (other_than sep) a = true ->
  split_char sep (a +:+ String sep b) = a :: split_char sep b.
Proof.
  induction a as [|c a IH]; simpl.
  - intros _. by rewrite Ascii.eqb_refl.
  - unfold other_than at 1. intros [Hc Ha]%andb_prop. apply negb_true_iff in Hc.
    rewrite Hc, IH; done.
Qed.

Lemma prefix_refl_app a b : String.prefix a (a +:+ b) = true.
Proof.
  induction a as [|c a IH]; simpl; [by destruct b |].
  destruct (ascii_dec c c); [exact IH | done].
Qed.

Lemma str_contains_prefix sub s : String.prefix sub s = true -> str_contains sub s = true.
Proof. intros H. destruct s; cbn [str_contains]; rewrite H; done. Qed.

Lemma str_contains_here sub b : str_contains sub (sub +:+ b) = true.
Proof. apply str_contains_prefix, prefix_refl_app. Qed.

Lemma str_contains_app sub a b :
  str_contains sub b = true -> str_contains sub (a +:+ b) = true.
Proof.
  intros H. induction a as [|c a IH]; simpl; [done |].
  rewrite IH. apply orb_true_r.
Qed.

Lemma str_contains_app_l sub a b :
  str_contains sub a = true -> str_contains sub (a +:+ b) = true.
Proof.
  revert sub. induction a as [|c a IH]; intros sub; simpl.
  - rewrite orb_false_r. destruct sub; [| done]. intros _. by destruct b.
  - intros [H|H]%orb_prop; [| rewrite (IH _ H); apply orb_true_r].
    apply orb_true_iff. left. clear IH. revert c a H.
    induction sub as [|d sub IHs]; intros c a H; simpl in *; [done |].
    destruct (ascii_dec d c); [| done].
    destruct a as [|c' a]; simpl in *.
    + destruct sub; [| done]. by destruct b.
    + destruct sub as [|d' sub]; [done |]. by apply IHs.
Qed.

Lemma chop_newline_some s s' : chop_newline s = Some s' -> s = s' +:+ String "010" "".
Proof.
  revert s'. induction s as [|c s IH]; intros s'; simpl; [done |].
  destruct s as [|d s].
  - destruct (Ascii.eqb c "010") eqn:E; [| done]. apply Ascii.eqb_eq in E.
    intros [= <-]. by subst.
  - destruct (chop_newline (String d s)) as [t|]; [| done].
    intros [= <-]. simpl. f_equal. by apply IH.
Qed.

(** ** The email pattern *)

Lemma local_char_not_at c : email_local_char c = true -> other_than "@" c = true.
Proof. destruct c as [[] [] [] [] [] [] [] []]; by vm_compute. Qed.

Lemma domain_char_not_at c : email_domain_char c = true -> other_than "@" c = true.
Proof. destruct c as [[] [] [] [] [] [] [] []]; by vm_compute. Qed.

Lemma letter_not_at c : is_ascii_letter c = true -> other_than "@" c = true.
Proof. destruct c as [[] [] [] [] [] [] [] []]; by vm_compute. Qed.

(** A string of the email expression has one "@", something before it, and a
    dot after it. *)
Lemma email_regex_shape s :
  in_lang email_regex s ->
  exists l r,
    s = l +:+ String "@" r /\ l <> "" /\
    all_chars (other_than "@") l = true /\
    all_chars (other_than "@") r = true /\
    str_contains "." r = true.
Proof.
  unfold email_regex, Lit.
  intros (l & s1 & -> & Hl & H1)%in_seq_inv.
  destruct (in_seq_inv _ _ _ H1) as (at' & s2 & -> & Hat & H2).
  destruct (in_seq_inv _ _ _ H2) as (d & s3 & -> & Hd & H3).
  destruct (in_seq_inv _ _ _ H3) as (dot & s4 & -> & Hdot & H4).
  destruct (in_seq_inv _ _ _ H4) as (a & s5 & -> & Ha & H5).
  destruct (in_seq_inv _ _ _ H5) as (b & t & -> & Hb & Ht).
  destruct (in_class_inv _ _ Hat) as (c1 & -> & E1). apply Ascii.eqb_eq in E1. subst c1.
  destruct (in_class_inv _ _ Hdot) as (c2 & -> & E2). apply Ascii.eqb_eq in E2. subst c2.
  destruct (in_class_inv _ _ Ha) as (ca & -> & Eca).
  destruct (in_class_inv _ _ Hb) as (cb & -> & Ecb).
  apply in_plus_class in Hl as [Hl Hne]. apply in_plus_class in Hd as [Hd _].
  apply in_star_class in Ht.
  exists l, (d +:+ String "." (String ca (String cb t))). simpl. repeat split; try done.
  - by apply (all_chars_impl _ _ _ local_char_not_at).
  - rewrite all_chars_app. simpl.
    rewrite (all_chars_impl _ _ _ domain_char_not_at Hd).
    rewrite (letter_not_at _ Eca), (letter_not_at _ Ecb).
    by rewrite (all_chars_impl _ _ _ letter_not_at Ht).
  - apply str_contains_app. apply (str_contains_here "." (String ca (String cb t))).
Qed.

Lemma email_match_shape s :
  pattern_match EMAIL_PATTERN s = true ->
  s <> "" /\
  exists l r, split_char "@" s = [l; r] /\ str_contains "." r = true.
Proof.
  simpl. unfold match_anchored. intros [H|H]%orb_prop.
  - apply fullmatch_sound, email_regex_shape in H
      as (l & r & -> & Hne & Hl & Hr & Hdot).
    split; [by destruct l |]. exists l, r.
    by rewrite split_char_first, split_char_none.
  - destruct (chop_newline s) as [s'|] eqn:E; [| done].
    apply chop_newline_some in E. subst s.
    apply fullmatch_sound, email_regex_shape in H
      as (l & r & -> & Hne & Hl & Hr & Hdot).
    split; [by destruct l |]. exists l, (r +:+ String "010" "").
    rewrite append_assoc. simpl.
    rewrite split_char_first, split_char_none; try done.
    + split; [done |]. by apply str_contains_app_l.
    + rewrite all_chars_app, Hr. done.
Qed.

Lemma observe_email allow_empty x :
  observe (email_validate allow_empty x) = Pure.email_validate allow_empty x.
Proof. apply observe_agrees, email_agrees. Qed.

Example email_accepted :
  observe (email_validate false (VStr "user@example.com")) = Ok (true, []).
Proof. reflexivity. Qed.

Example email_without_domain_rejected :
  observe (email_validate false (VStr "invalid-email")) =
  Ok (false, [error_of ("String does not match required pattern "
                        +:+ pattern_src EMAIL_PATTERN)]).
Proof. reflexivity. Qed.

Example email_with_consecutive_dots_rejected :
  observe (email_validate false (VStr "a..b@example.com")) =
  Ok (false, [error_of "Email cannot contain consecutive dots"]).
Proof. reflexivity. Qed.

Example empty_email_rejected_even_if_allowed :
  observe (email_validate true (VStr "")) =
  Ok (false, [error_of ("String does not match required pattern "
                        +:+ pattern_src EMAIL_PATTERN)]).
Proof. reflexivity. Qed.

Lemma email_string_result allow_empty s :
  Pure.string_validate (email_config allow_empty) (VStr s) =
  Ok (let r0 :=
        if Z.of_nat (String.length s) <? (if allow_empty then 0 else 1)
        then Pure.fail_with (Pure.new_result true)
               ("String length must be at least "
                +:+ str_of_Z (if allow_empty then 0 else 1) +:+ " characters")
        else Pure.new_result true in
      (if negb (pattern_match EMAIL_PATTERN s)
       then Pure.fail_with r0 ("String does not match required pattern "
                               +:+ pattern_src EMAIL_PATTERN)
       else r0)).
Proof. reflexivity. Qed.

Lemma nonempty_long_enough (allow_empty : bool) s :
  s <> "" -> (Z.of_nat (String.length s) <? (if allow_empty then 0 else 1)) = false.
Proof.
  intros Hne. apply Z.ltb_ge. destruct s as [|c s]; [done |].
  simpl String.length. destruct allow_empty; lia.
Qed.

(** X13. [EmailValidator] accepts exactly the strings that match the email
    pattern and have no two consecutive dots; a string that matches the
    pattern gets no error but, possibly, the one about consecutive dots.
    Whether [allow_empty] is set makes no difference to what is accepted: the
    empty string does not match the pattern. *)
Theorem email_accepted_iff allow_empty s :
  exists errs,
    observe (email_validate allow_empty (VStr s)) =
      Ok ((pattern_match EMAIL_PATTERN s && negb (str_contains ".." s))%bool, errs) /\
    (pattern_match EMAIL_PATTERN s = true ->
     errs = if str_contains ".." s
            then [error_of "Email cannot contain consecutive dots"] else []).
Proof.
  rewrite observe_email. unfold Pure.email_validate. rewrite email_string_result.
  cbv zeta. destruct (pattern_match EMAIL_PATTERN s) eqn:Hm.
  - destruct (email_match_shape s Hm) as (Hne & l & r & Hsplit & Hdot).
    rewrite (nonempty_long_enough allow_empty s Hne).
    cbn [negb Pure.new_result fst].
    assert (String.eqb s "" = false) as -> by (by destruct s).
    cbn [negb]. rewrite Hsplit. cbn [List.length Nat.eqb nth]. rewrite Hdot.
    cbn [negb andb].
    destruct (str_contains ".." s); eexists; (split; [reflexivity | done]).
  - cbn [negb].
    destruct (Z.of_nat (String.length s) <? (if allow_empty then 0 else 1));
      eexists; (split; [reflexivity | done]).
Qed.

(** X14. [EmailValidator.validate] never raises, and its check of the domain
    never fires: after the pattern has matched there is exactly one "@" and a
    dot after it, so the error "Email domain must contain at least one dot"
    is never reported. *)
Theorem email_domain_check_never_fires allow_empty x :
  exists b errs,
    observe (email_validate allow_empty x) = Ok (b, errs) /\
    Forall (fun e => message e <> "Email domain must contain at least one dot") errs.
Proof.
  rewrite observe_email. unfold Pure.email_validate.
  destruct x as [| | | |s| | |];
    try (eexists _, _; split; [reflexivity |]; repeat constructor; discriminate).
  rewrite email_string_result. cbv zeta.
  destruct (pattern_match EMAIL_PATTERN s) eqn:Hm.
  - destruct (email_match_shape s Hm) as (Hne & l & r & Hsplit & Hdot).
    rewrite (nonempty_long_enough allow_empty s Hne).
    cbn [negb Pure.new_result fst].
    assert (String.eqb s "" = false) as -> by (by destruct s).
    cbn [negb]. rewrite Hsplit. cbn [List.length Nat.eqb nth]. rewrite Hdot.
    cbn [negb andb].
    destruct (str_contains ".." s); eexists _, _; (split; [reflexivity |]);
      repeat constructor; discriminate.
  - cbn [negb].
    destruct (Z.of_nat (String.length s) <? (if allow_empty then 0 else 1));
      eexists _, _; (split; [reflexivity |]); repeat constructor; discriminate.
Qed.

(** ** [PasswordValidator] *)

Lemma observe_password chars c x :
  observe (password_validate chars c x) = Pure.password_validate chars c x.
Proof. apply observe_agrees, password_agrees. Qed.

(** X15. [PasswordValidator] accepts a string exactly when it is long enough
    and has a character of each required class, and otherwise reports one
    error for each requirement the string fails; a value that is not a string
    gets the type error only. *)
Theorem password_one_error_per_requirement chars c :
  (forall s, exists errs,
      observe (password_validate chars c (VStr s)) =
        Ok (forallb id (password_requirements chars c s), errs) /\
      List.length errs = violations (password_requirements chars c s)) /\
  (forall x, is_str x = false ->
      observe (password_validate chars c x) =
        Ok (false, [error_of ("Expected string but got " +:+ type_name x)])).
Proof.
  split.
  - intros s. rewrite observe_password.
    unfold Pure.password_validate, Pure.string_validate, password_requirements, violations.
    cbn [str_min_length str_max_length str_pattern str_allowed_values
         password_string_config].
    cbv zeta.
    rewrite (Z.leb_antisym (Z.of_nat (String.length s)) (pw_min_length c)).
    destruct (Z.of_nat (String.length s) <? pw_min_length c);
      destruct (pw_require_uppercase c), (any_char (isupper chars) s);
      destruct (pw_require_lowercase c), (any_char (islower chars) s);
      destruct (pw_require_digit c), (any_char (isdigit chars) s);
      destruct (pw_require_special c),
               (any_char (fun ch => negb (isalnum chars ch)) s);
      eexists; split; reflexivity.
  - intros x Hx. rewrite observe_password. by destruct x.
Qed.

(** ** [ValidatedModel] *)

Section Models.

Context (lib : Lib).

Lemma model_fields_agrees attributes fields :
  forall h0 h p r,
    extends h0 h -> good h0 h p r ->
    agrees h0 (model_fields lib attributes fields r)
      (pure_model_fields lib attributes fields p) h.
Proof.
  induction fields as [|[name x] fields IH]; intros h0 h p r He Hg; simpl.
  - by apply agrees_ret.
  - destruct (class_attribute attributes (validator_attribute name)) as [v|];
      [| by apply agrees_ret_bind, IH].
    pose proof (validate_refines lib v x h) as Hx. unfold agrees in Hx.
    destruct (Pure.validate lib v x) as [pc|e].
    + destruct Hx as (rc & h1 & E & He1 & Hg1).
      destruct (absorb_good name h0 h h1 p r pc rc He Hg He1 Hg1)
        as (r' & h2 & E2 & He2 & Hg2).
      specialize (IH h0 h2 _ r' He2 Hg2).
      unfold agrees, bind in *. rewrite E, E2. exact IH.
    + unfold agrees, bind. by rewrite Hx.
Qed.

Lemma model_agrees attributes fields h :
  agrees h (model_validate lib attributes fields)
    (pure_model_fields lib attributes fields (Pure.new_result true)) h.
Proof. apply model_fields_agrees; [apply extends_refl | apply good_new]. Qed.

Lemma observe_model attributes fields :
  observe (model_validate lib attributes fields) =
  pure_model_fields lib attributes fields (Pure.new_result true).
Proof. apply observe_agrees, model_agrees. Qed.

Lemma pure_model_fields_eq attributes fields outcomes :
  Forall2 (fun fx o =>
             match class_attribute attributes (validator_attribute fx.1) with
             | Some v => exists res, Pure.validate lib v fx.2 = Ok res /\ o = Some res
             | None => o = None
             end) fields outcomes ->
  forall acc : Pure.res,
    pure_model_fields lib attributes fields acc =
    Ok (acc.1 && forallb (fun o => from_option fst true o) outcomes,
        acc.2 ++ concat (zip_with (fun fx o =>
                   from_option (fun res : Pure.res => map (prefixed fx.1) res.2) [] o)
                   fields outcomes)).
Proof.
  induction 1 as [|[name x] o fields outcomes Ho _ IH]; intros acc; simpl.
  - rewrite andb_true_r, app_nil_r. by destruct acc.
  - simpl in Ho. destruct (class_attribute attributes (validator_attribute name)) as [v|].
    + destruct Ho as (res & Hres & ->). rewrite Hres, IH.
      rewrite pure_absorb_eq by (by eapply pure_valid_iff). simpl.
      by rewrite <- andb_assoc, <- app_assoc.
    + subst o. rewrite IH. done.
Qed.

(** X16. [ValidatedModel.validate] checks the attributes of the instance in
    order, each against the class attribute [_<name>_validator] if the class
    has one: its errors are the errors of those attributes, each with the
    attribute name prefixed to its path, and an attribute without such a
    validator is not checked at all. *)
Theorem model_errors_compose attributes fields outcomes :
  Forall2 (fun fx o =>
             match class_attribute attributes (validator_attribute fx.1) with
             | Some v => exists res, run lib v fx.2 = Ok res /\ o = Some res
             | None => o = None
             end) fields outcomes ->
  observe (model_validate lib attributes fields) =
  Ok (forallb (fun o => from_option fst true o) outcomes,
      concat (zip_with (fun fx o =>
                from_option (fun res : Pure.res => map (prefixed fx.1) res.2) [] o)
                fields outcomes)).
Proof.
  intros H. rewrite observe_model.
  rewrite (pure_model_fields_eq attributes fields outcomes); [done |].
  eapply Forall2_impl; [exact H |]. intros fx o Ho. cbv beta in *.
  destruct (class_attribute attributes (validator_attribute fx.1)); [| done].
  destruct Ho as (res & Hres & ->). exists res. by rewrite <- run_pure.
Qed.

Lemma pure_model_valid_iff attributes fields :
  forall (acc p : Pure.res),
    (acc.1 = true <-> acc.2 = []) ->
    pure_model_fields lib attributes fields acc = Ok p ->
    (p.1 = true <-> p.2 = []).
Proof.
  induction fields as [|[name x] fields IH]; intros acc p Hacc; simpl.
  - by intros [= <-].
  - destruct (class_attribute attributes (validator_attribute name)) as [v|];
      [| by apply IH].
    destruct (Pure.validate lib v x) as [pc|] eqn:E; [| done].
    apply IH. rewrite pure_absorb_eq by (by eapply pure_valid_iff). simpl.
    pose proof (pure_valid_iff lib v x pc E) as Hpc.
    destruct acc as [b es], pc as [bc ec]. simpl in *. split.
    + intros [-> ->]%andb_prop. rewrite (proj1 Hacc eq_refl), (proj1 Hpc eq_refl). done.
    + intros [E1 E2]%app_eq_nil. apply map_eq_nil in E2.
      rewrite (proj2 Hacc E1), (proj2 Hpc E2). done.
Qed.

(** X17. [ValidatedModel.from_dict] is strict: it returns an instance only if
    the instance validates without errors, and otherwise raises one
    [ValidationError], "Invalid <class>", whose details list the messages of
    all the errors of the validation, of which there is at least one. *)
Theorem from_dict_is_strict cls data h :
  match from_dict lib cls data h with
  | Instance fields =>
      class_init cls data = Ok fields /\
      observe (model_validate lib (class_validators cls) fields) = Ok (true, [])
  | Rejected error =>
      exists fields errs,
        class_init cls data = Ok fields /\
        observe (model_validate lib (class_validators cls) fields) = Ok (false, errs) /\
        errs <> [] /\
        error = {| message := "Invalid " +:+ class_name cls;
                   field := None;
                   details := [("errors", VList (map VStr (map message errs)))] |}
  | Failed e =>
      class_init cls data = Raise e \/
      exists fields,
        class_init cls data = Ok fields /\
        observe (model_validate lib (class_validators cls) fields) = Raise e
  end.
Proof.
  unfold from_dict. destruct (class_init cls data) as [fields|e]; [| by left].
  pose proof (model_agrees (class_validators cls) fields h) as H. unfold agrees in H.
  pose proof (observe_model (class_validators cls) fields) as Ho.
  destruct (pure_model_fields lib (class_validators cls) fields (Pure.new_result true))
    as [[b es]|e] eqn:E.
  - destruct H as (r & h' & -> & _ & Hv & Hw & _). simpl in Hv, Hw.
    assert (Hi : b = true <-> es = []).
    { apply (pure_model_valid_iff (class_validators cls) fields (Pure.new_result true)
               (b, es)); [done | exact E]. }
    rewrite Hv, Hw. destruct b.
    + split; [done |]. by rewrite Ho, (proj1 Hi eq_refl).
    + exists fields, es. repeat split; try done. intros ->.
      by specialize (proj2 Hi eq_refl).
  - rewrite H. right. by exists fields.
Qed.

End Models.

Lemma model_errors_compose_witness :
  observe (model_validate example_lib
             [("_age_validator", NumberValidator age_number)]
             [("name", VStr "Ann"); ("age", VInt 150)]) =
  Ok (forallb (fun o => from_option fst true o)
        ([None; Some (false, [error_of "Value must not exceed 120"])]
           : list (option Pure.res)),
      concat (zip_with (fun (fx : string * value) o =>
                from_option (fun res : Pure.res => map (prefixed fx.1) res.2) [] o)
                [("name", VStr "Ann"); ("age", VInt 150)]
                [None; Some (false, [error_of "Value must not exceed 120"])])).
Proof.
  apply (model_errors_compose example_lib
           [("_age_validator", NumberValidator age_number)]
           [("name", VStr "Ann"); ("age", VInt 150)]
           [None; Some (false, [error_of "Value must not exceed 120"])]).
  constructor; [reflexivity |]. constructor; [| constructor].
  eexists. split; reflexivity.
Defined.

(** ** [DateValidator] *)

Section DateProperties.

Context (lib : Lib).

(** X18. The bounds of a [DateValidator] are inclusive, and both are
    checked: a plain date is accepted exactly when it lies between two plain
    date bounds, and gets one error for each bound it violates. *)
Theorem date_bounds_inclusive (a b d : Z) format_str :
  run lib
    (DateValidator {| date_min_date := Some (PlainDate a);
                      date_max_date := Some (PlainDate b);
                      date_format_str := format_str |})
    (VDate (PlainDate d)) =
  Ok ((a <=? d) && (d <=? b),
      (if d <? a
       then [error_of ("Date must be on or after " +:+ py_str lib (VDate (PlainDate a)))]
       else []) ++
      (if b <? d
       then [error_of ("Date must be on or before " +:+ py_str lib (VDate (PlainDate b)))]
       else [])).
Proof.
  rewrite run_pure. simpl. unfold Pure.date_validate, Pure.date_range, date_gt. simpl.
  rewrite (Z.leb_antisym d a), (Z.leb_antisym b d).
  by destruct (d <? a), (b <? d).
Qed.

End DateProperties.

(** * The store under the operations of the framework *)

Section Store.

Context (lib : Lib).

Lemma cell_ok_kept c : cell_ok c -> kept c.
Proof. apply history_same_message. Qed.

Lemma grows_refl h : grows h h.
Proof. exists []. split; [by rewrite app_nil_r | constructor]. Qed.

Lemma grows_trans h1 h2 h3 : grows h1 h2 -> grows h2 h3 -> grows h1 h3.
Proof.
  intros (n1 & -> & H1) (n2 & -> & H2). exists (n1 ++ n2).
  split; [by rewrite app_assoc | by apply Forall_app].
Qed.

Lemma extends_grows h h' : extends h h' -> grows h h'.
Proof.
  intros (news & -> & Hok). exists news. split; [done |].
  eapply Forall_impl; [exact Hok |]. apply cell_ok_kept.
Qed.

Lemma grows_alloc h h' e : grows h h' -> grows h (h' ++ [{| now := e; was := [] |}]).
Proof.
  intros H. eapply grows_trans; [exact H |].
  eexists. split; [reflexivity |]. repeat constructor.
Qed.

Lemma assign_kept name c : kept c -> kept (assign name c).
Proof. intros H. unfold kept, assign. simpl. by constructor. Qed.

Lemma grows_assign name h h' a :
  grows h h' -> (List.length h <= a)%nat -> grows h (alter (assign name) a h').
Proof.
  intros (news & -> & Hk) Ha. exists (alter (assign name) (a - List.length h)%nat news).
  split; [by apply alter_app_r_alt |].
  apply Forall_alter; [done |]. intros c _. apply assign_kept.
Qed.

Lemma relabel_eq name errs r h :
  relabel name errs r h =
  Ok (fold_left add_error errs r, fold_left (fun h a => alter (assign name) a h) errs h).
Proof.
  revert r h. induction errs as [|a errs IH]; intros r h; [done |].
  simpl. unfold bind, set_field. apply IH.
Qed.

Lemma grows_relabel name errs h h' :
  grows h h' -> Forall (fun a => (List.length h <= a)%nat) errs ->
  grows h (fold_left (fun h a => alter (assign name) a h) errs h').
Proof.
  revert h'. induction errs as [|a errs IH]; intros h' Hg Ha; [done |].
  apply Forall_cons in Ha as [Ha Hrest]. simpl. apply IH; [| done].
  by apply grows_assign.
Qed.

Lemma collect_eq prefix errs acc h :
  collect prefix errs acc h = Ok (acc ++ errs, reassign_all prefix errs h).
Proof.
  revert acc h. induction errs as [|a errs IH]; intros acc h; simpl.
  - by rewrite app_nil_r.
  - unfold bind, set_field_prefixed. rewrite IH. by rewrite <- app_assoc.
Qed.

Lemma check_arguments_extends validators arguments :
  forall acc h0 h errs h',
    extends h0 h ->
    check_arguments lib validators arguments acc h = Ok (errs, h') ->
    extends h0 h'.
Proof.
  induction validators as [|[name v] validators IH]; intros acc h0 h errs h' He E;
    simpl in E.
  - by injection E as _ <-.
  - unfold bind in E. destruct (argument arguments name) as [x|];
      [| eapply IH; [exact He | exact E]].
    destruct (validate lib v x h) as [[rc h1]|e] eqn:E1; [| done].
    destruct (validate_ok_inv lib v x h rc h1 E1) as (pc & _ & He1 & Hg1).
    destruct (is_valid rc) eqn:Hv.
    + eapply IH; [| exact E]. by eapply extends_trans.
    + rewrite collect_eq in E. eapply IH; [| exact E].
      destruct (absorb_good name h0 h h1 _ _ pc rc He (good_new h0 h) He1 Hg1)
        as (r' & h2 & E2 & He2 & _).
      unfold absorb in E2. rewrite Hv, aggregate_eq in E2.
      by injection E2 as _ <-.
Qed.

Lemma registration_form_grows form_data h r h' :
  validate_registration_form lib form_data h = Ok (r, h') -> grows h h'.
Proof.
  unfold validate_registration_form.
  destruct (new_JSONSchemaValidator lib registration_schema) as [v|e]; [| done].
  unfold bind. destruct (validate lib v form_data h) as [[r1 h1]|e] eqn:E1; [| done].
  destruct (validate_ok_inv lib v form_data h r1 h1 E1) as (p1 & _ & He1 & _).
  apply extends_grows in He1.
  destruct (is_valid r1); [| by intros [= _ <-]].
  destruct form_data as [| | | | | | |entries]; try done.
  assert (exists r2 h2,
            (if negb (py_eq lib (dict_get_or entries "password" VNone)
                        (dict_get_or entries "confirm_password" VNone))
             then fail_at r1 "Passwords do not match" "confirm_password"
             else ret r1) h1 = Ok (r2, h2) /\ grows h h2) as (r2 & h2 & -> & Hg2).
  { destruct (negb _); eexists _, _; (split; [reflexivity |]); [by apply grows_alloc | done]. }
  cbv zeta. simpl.
  destruct (password_validate (py_chars lib) default_password
              (dict_get_or entries "password" (VStr "")) h2) as [[pr h3]|e] eqn:E3; [| done].
  destruct (validate_ok_inv lib (PasswordValidator default_password) _ h2 pr h3 E3)
    as (pp & _ & He3 & _ & _ & Hb3 & _).
  assert (exists r4 h4,
            (if negb (is_valid pr) then relabel "password" (errors pr) r2 else ret r2) h3
            = Ok (r4, h4) /\ grows h h4) as (r4 & h4 & -> & Hg4).
  { assert (grows h h3) as Hg3 by (eapply grows_trans; [exact Hg2 | by apply extends_grows]).
    destruct (negb _); [| by eexists _, _].
    rewrite relabel_eq. eexists _, _. split; [reflexivity |].
    apply grows_relabel; [done |].
    eapply Forall_impl; [exact Hb3 |]. simpl. intros a Ha.
    destruct Hg2 as (n2 & -> & _). rewrite length_app in Ha. lia. }
  destruct (negb _); intros [= _ <-]; [by apply grows_alloc | done].
Qed.

(** C7 (amended).  Each operation of the framework that handles error
    objects leaves the objects that existed before it untouched, and every
    object constructed during it keeps its [message] and its [details]
    through all the assignments made to it.  (Only [field] is assigned:
    always to the old path with a segment prepended, except by
    [validate_registration_form].) *)
Theorem C7_message_and_details_kept op h h' :
  store_after lib op h = Some h' ->
  exists news,
    h' = h ++ news /\
    Forall kept news /\
    (prefixing op = true -> Forall (fun c => history (now c) (was c)) news).
Proof.
  assert (forall h', extends h h' ->
            exists news, h' = h ++ news /\ Forall kept news /\
                         (true = true -> Forall (fun c => history (now c) (was c)) news))
    as Hext.
  { intros h1 (news & -> & Hok). exists news. split; [done |]. split; [| done].
    eapply Forall_impl; [exact Hok |]. apply cell_ok_kept. }
  destruct op as [v x|attributes fields|validators arguments|form_data]; simpl;
    unfold store_of.
  - destruct (validate lib v x h) as [[r h1]|e] eqn:E; [| done]. intros [= <-].
    apply Hext. by destruct (validate_ok_inv lib v x h r h1 E) as (p & _ & He & _).
  - pose proof (model_agrees lib attributes fields h) as H. unfold agrees in H.
    destruct (pure_model_fields lib attributes fields (Pure.new_result true)) as [p|e].
    + destruct H as (r & h1 & -> & He & _). intros [= <-]. by apply Hext.
    + by rewrite H.
  - destruct (check_arguments lib validators arguments [] h) as [[errs h1]|e] eqn:E;
      [| done].
    intros [= <-]. apply Hext.
    eapply check_arguments_extends; [apply extends_refl | exact E].
  - destruct (validate_registration_form lib form_data h) as [[r h1]|e] eqn:E; [| done].
    intros [= <-]. destruct (registration_form_grows _ _ _ _ E) as (news & -> & Hk).
    exists news. split; [done |]. split; [done |]. done.
Qed.

End Store.

Lemma C7_witness :
  store_after example_lib (Validate nested_schema nested_input) [earlier_error] =
    Some [earlier_error;
          {| now := {| message := "Expected string but got int";
                       field := Some "a.[0].b"; details := [] |};
             was := [{| message := "Expected string but got int";
                        field := Some "[0].b"; details := [] |};
                     {| message := "Expected string but got int";
                        field := Some "b"; details := [] |};
                     {| message := "Expected string but got int";
                        field := None; details := [] |}] |}] /\
  exists news,
    [earlier_error;
     {| now := {| message := "Expected string but got int";
                  field := Some "a.[0].b"; details := [] |};
        was := [{| message := "Expected string but got int";
                   field := Some "[0].b"; details := [] |};
                {| message := "Expected string but got int";
                   field := Some "b"; details := [] |};
                {| message := "Expected string but got int";
                   field := None; details := [] |}] |}] = [earlier_error] ++ news /\
    Forall kept news /\
    (prefixing (Validate nested_schema nested_input) = true ->
     Forall (fun c => history (now c) (was c)) news).
Proof.
  split; [reflexivity |].
  apply (C7_message_and_details_kept example_lib (Validate nested_schema nested_input)
           [earlier_error]).
  reflexivity.
Defined.

(** [validate_registration_form] on a form with a weak password, in a store
    that holds an earlier error: the three errors of the password validator
    are constructed without a field and then given the field ["password"];
    the earlier object is as it was. *)
Example registration_form_relabels_password_errors :
  store_after example_lib
    (ValidateRegistrationForm
       (VDict [(VStr "username", VStr "bob_1"); (VStr "email", VStr "b@x.org");
               (VStr "password", VStr "password");
               (VStr "confirm_password", VStr "password");
               (VStr "terms_accepted", VBool true)]))
    [earlier_error] =
  Some [earlier_error;
        {| now := {| message := "Password must contain at least one uppercase letter";
                     field := Some "password"; details := [] |};
           was := [error_of "Password must contain at least one uppercase letter"] |};
        {| now := {| message := "Password must contain at least one digit";
                     field := Some "password"; details := [] |};
           was := [error_of "Password must contain at least one digit"] |};
        {| now := {| message := "Password must contain at least one special character";
                     field := Some "password"; details := [] |};
           was := [error_of "Password must contain at least one special character"] |}].
Proof. reflexivity. Qed.

(** Whatever the function of a [CustomValidator] answers, in whatever state it
    is, the result of the validator is valid exactly when it holds no
    error. *)
Lemma custom_conclude_valid_iff msg answer h r h' :
  custom_conclude msg answer h = Ok (r, h') -> (is_valid r = true <-> errors r = []).
Proof.
  unfold custom_conclude, fail_with, bind, new_error, ret. cbv zeta.
  destruct answer as [|b|z|f|s|d|items|entries]; try (by intros [= <- _]).
  - destruct (negb b); intros [= <- _]; done.
  - destruct (negb (String.eqb s "")); intros [= <- _]; done.
Qed.

(** C8, as stated, fails for a [CustomValidator] over a function that keeps
    state: the same validator accepts the value 1 on the first call and
    rejects it on the second. *)
Lemma C8_stateful_function_answers_differently :
  let first :=
    stateful_custom_validate first_call_only "Validation failed" (VInt 1) false in
  let second :=
    stateful_custom_validate first_call_only "Validation failed" (VInt 1) first.2 in
  first.1 [] = Ok ({| is_valid := true; errors := [] |}, []) /\
  second.1 [] =
    Ok ({| is_valid := false; errors := [0%nat] |},
        [{| now := error_of "Validation failed"; was := [] |}]).
Proof. split; reflexivity. Qed.

(** ** The common patterns and the custom validator on examples *)

Example phone_number_accepted :
  run example_lib
    (PhoneNumberValidator {| phone_allow_international := true; phone_country_code := None |})
    (VStr "(415) 555-2671") = Ok (true, []).
Proof. reflexivity. Qed.

Example phone_number_of_another_country_rejected :
  run example_lib
    (PhoneNumberValidator
       {| phone_allow_international := true; phone_country_code := Some "49" |})
    (VStr "+14155552671") =
  Ok (false, [error_of "Phone number must start with country code +49"]).
Proof. reflexivity. Qed.

Example url_of_another_domain_rejected :
  run example_lib
    (URLValidator {| url_require_https := true; url_allowed_domains := Some ["example.com"] |})
    (VStr "http://example.com.evil.org/x") =
  Ok (false, [error_of "URL must use HTTPS protocol";
              error_of "URL domain must be one of: example.com"]).
Proof. reflexivity. Qed.

Example url_of_a_subdomain_accepted :
  run example_lib
    (URLValidator {| url_require_https := true; url_allowed_domains := Some ["example.com"] |})
    (VStr "https://api.example.com:8080/v1?x=1") = Ok (true, []).
Proof. reflexivity. Qed.

Example custom_message_reported :
  run example_lib
    (ListValidator
       (Some (CustomValidator
                (fun x => Ok (match x with VInt 0 => VStr "zero" | _ => VBool true end))
                "Validation failed"))
       0 None false)
    (VList [VInt 1; VInt 0]) =
  Ok (false, [{| message := "zero"; field := Some "[1]"; details := [] |}]).
Proof. reflexivity. Qed.

Example custom_exception_escapes :
  run example_lib
    (CustomValidator (fun _ => Raise (UserError "ZeroDivisionError")) "Validation failed")
    VNone = Raise (UserError "ZeroDivisionError").
Proof. reflexivity. Qed.
